(** * A Telegram bot bridging a chat to a completion provider

    Shallow embedding of [supabase/functions/telegram-bot/index.ts].

    The handlers of the bot are asynchronous JavaScript functions that call
    collaborators (the history store, the completion provider, the Telegram
    send API, the console).  They are embedded in a monad that threads the
    persisted histories, carries exceptions, and collects the trace of the
    collaborator calls performed.  Whether a collaborator call fails, and
    what the provider answers, is decided by a record of oracles
    ([Collaborators]), functions of the arguments of the call, over which
    every theorem is universally quantified. *)

From Stdlib Require Import Ascii.
From stdpp Require Import base strings gmap list pretty.

(** * Values *)

(** A thrown JavaScript value, identified by its message. *)
Definition Error : Type := string.

(** The one-character string written ["\n"] in the source. *)
Definition nl : string := String "010"%char EmptyString.

(** JavaScript truthiness of a string: only the empty string is falsy. *)
Definition truthy (s : string) : bool :=
  match s with
  | EmptyString => false
  | String _ _ => true
  end.

(** Truthiness of a [string | undefined]. *)
Definition truthy_opt (x : option string) : bool :=
  match x with
  | Some s => truthy s
  | None => false
  end.

(** [x || d] on a [string | undefined]. *)
Definition or_else (x : option string) (d : string) : string :=
  match x with
  | Some s => if truthy s then s else d
  | None => d
  end.

(** [a === b] where [a] is [string | undefined] (or [string | null]) and [b]
    is a string. *)
Definition strict_eq_str (a : option string) (b : string) : bool :=
  match a with
  | Some s => bool_decide (s = b)
  | None => false
  end.

(** [a === b] where [a] is [string | null] and [b] is [string | undefined]:
    [null] and [undefined] are different values, so the comparison holds only
    between two equal strings. *)
Definition strict_eq_null_undef (a b : option string) : bool :=
  match a, b with
  | Some s, Some t => bool_decide (s = t)
  | _, _ => false
  end.

(** [!userId] on a [number | undefined]. *)
Definition falsy_id (x : option Z) : bool :=
  match x with
  | Some n => bool_decide (n = 0%Z)
  | None => true
  end.

(** [s.replaceAll("\n", "")]. *)
Fixpoint remove_newlines (s : string) : string :=
  match s with
  | EmptyString => EmptyString
  | String c r =>
      if bool_decide (c = "010"%char) then remove_newlines r
      else String c (remove_newlines r)
  end.

(** * Data model *)

Inductive Role := system | user | assistant.

Global Instance Role_eq_dec : EqDecision Role.
Proof. solve_decision. Defined.

Record Message := { role : Role; content : string }.

(** The sender of an update ([ctx.from]). *)
Record User := { user_id : Z; user_username : option string }.

(** What the handlers read of grammY's context object (the source's
    [BotContext]).
    - [ctx_from] is [ctx.from];
    - [ctx_is_message] tells whether [ctx.update.message] is present, which is
      what [bot.on("message")] filters on;
    - [ctx_text] is [ctx.update.message.text];
    - [ctx_command] is the command that grammY's [command] filter recognises
      at the start of the text, if any. *)
Record BotContext := {
  ctx_from : option User;
  ctx_is_message : bool;
  ctx_text : option string;
  ctx_command : option string
}.

(** [ctx.from?.username] *)
Definition ctx_username (ctx : BotContext) : option string :=
  from ← ctx_from ctx; user_username from.

(** The key under which a history is stored: the handlers pass a
    [number | undefined]. *)
Abbreviation UserKey := (option Z).

Inductive ParseMode := HTML | Markdown.

(** Result of the usage query; the two amounts are only ever interpolated
    into a reply, and are kept as their renderings. *)
Record Credits := { total_available : string; total_used : string }.

(** * Collaborator calls and the store *)

Inductive Event :=
| EvReply (text : string) (parse_mode : option ParseMode)
| EvConsoleError (e : Error)
| EvConsoleLog (s : string)
| EvGetHistory (u : UserKey)
| EvUpdateHistory (u : UserKey) (ms : list Message)
| EvClearHistory (u : UserKey)
| EvGetAiResponse (ms : list Message)
| EvGetCredits
| EvUnhandledRejection (e : Error).

(** The persisted histories, one per key. *)
Abbreviation Store := (gmap UserKey (list Message)).

Inductive StoreOp :=
| OpGet (u : UserKey)
| OpSet (u : UserKey) (ms : list Message)
| OpClear (u : UserKey).

(** The helpers imported from [./utils.ts] and the behaviour of the external
    services.  [utils.ts] is not part of the sources at hand: its pure
    helpers are parameters, and the outcome of each call to a service is
    given by an oracle. *)
Record Collaborators := {
  estimateTokens : string → Z;
  formatMessageHistory : list Message → string;
  getUserId : BotContext → option Z;
  (** answer of the completion provider to a list of messages *)
  ai_answer : list Message → Error + string;
  (** answer of the provider's usage query *)
  credits_answer : Error + Credits;
  (** [Some e] when the storage layer fails on an operation *)
  store_fault : StoreOp → option Error;
  (** [Some e] when Telegram refuses or fails to deliver a reply *)
  send_fault : string → option ParseMode → option Error;
  (** [`${new Date()}`] and [`${Date.now()}`] *)
  date_string : string;
  date_now : string
}.

(** * The monad of handlers *)

(** A handler starts from the stored histories and ends with a value or a
    thrown error, the histories as it leaves them, and the calls it made. *)
Definition M (A : Type) : Type := Store → (Error + A) * Store * list Event.

Definition ret {A} (a : A) : M A := λ st, (inr a, st, []).

Definition throw {A} (e : Error) : M A := λ st, (inl e, st, []).

Definition bind {A B} (m : M A) (k : A → M B) : M B :=
  λ st, match m st with
        | (inl e, st', t) => (inl e, st', t)
        | (inr a, st', t) =>
            match k a st' with
            | (r, st'', t') => (r, st'', t ++ t')
            end
        end.

(** [try { m } catch (e) { h e }] *)
Definition try_catch {A} (m : M A) (h : Error → M A) : M A :=
  λ st, match m st with
        | (inl e, st', t) =>
            match h e st' with
            | (r, st'', t') => (r, st'', t ++ t')
            end
        | (inr a, st', t) => (inr a, st', t)
        end.

Definition emit (ev : Event) : M unit := λ st, (inr tt, st, [ev]).

Declare Scope handler_scope.
Delimit Scope handler_scope with handler.
Bind Scope handler_scope with M.
Notation "'let!' x := m 'in' k" := (bind m (λ x, k))
  (at level 10, x name, m at level 100, k at level 200,
   format "'[v' 'let!'  x  :=  m  'in' '/' k ']'") : handler_scope.
Notation "m ;; k" := (bind m (λ _, k))
  (at level 100, k at level 200, right associativity,
   format "'[v' m  ;; '/' k ']'") : handler_scope.
Local Open Scope handler_scope.

(** [console.error(e)] and [console.log(s)] *)
Definition console_error (e : Error) : M unit := emit (EvConsoleError e).
Definition console_log (s : string) : M unit := emit (EvConsoleLog s).

(** [if (b) { m }] *)
Definition when (b : bool) (m : M unit) : M unit := if b then m else ret tt.

(** * Collaborators *)

(** The process environment read through [Deno.env.get]. *)
Record ProcessEnv := {
  USERS : option string;
  BOT_TOKEN : option string;
  FUNCTION_SECRET : option string
}.

Section Bot.

Variable env : Collaborators.

(** The allow-list [users], as the array of strings that the source's type
    says it is, and the process environment, which [serve] reads again at
    every request. *)
Variable users : list string.
Variable penv : ProcessEnv.

(** ** Sending replies

    [reply text mode] is [await ctx.reply(text, { parse_mode: mode })]: the
    call is recorded, and a delivery failure is thrown to the caller. *)
Definition reply (text : string) (mode : option ParseMode) : M unit :=
  emit (EvReply text mode);;
  match send_fault env text mode with
  | Some e => throw e
  | None => ret tt
  end.

(** [await ctx.reply(text, opts).catch((e) => console.error(e))] *)
Definition reply_logged (text : string) (mode : option ParseMode) : M unit :=
  try_catch (reply text mode) console_error.

(** [ctx.reply(text)] as a statement, neither awaited nor returned: the
    handler goes on whatever becomes of the promise, and a delivery failure
    is a rejection that nothing handles. *)
Definition reply_detached (text : string) (mode : option ParseMode) : M unit :=
  try_catch (reply text mode) (λ e, emit (EvUnhandledRejection e)).

(** ** The history store *)

(** Modelled from the spec: [getUserMessageHistory] of [utils.ts], which is
    not among the sources.  It returns the stored sequence, or the empty
    sequence when the user has none; a storage failure is thrown to the
    caller. *)
Definition getUserMessageHistory (u : UserKey) : M (list Message) :=
  emit (EvGetHistory u);;
  match store_fault env (OpGet u) with
  | Some e => throw e
  | None => λ st, (inr (default [] (st !! u)), st, [])
  end.

(** Modelled from the spec: [updateUserMessageHistory] of [utils.ts], which
    is not among the sources.  It replaces the stored sequence; a storage
    failure is thrown to the caller and leaves the stored value as it
    was. *)
Definition updateUserMessageHistory (u : UserKey) (ms : list Message)
    : M unit :=
  emit (EvUpdateHistory u ms);;
  match store_fault env (OpSet u ms) with
  | Some e => throw e
  | None => λ st, (inr tt, <[u := ms]> st, [])
  end.

(** Modelled from the spec: [clearUserMessageHistory] of [utils.ts], which
    is not among the sources.  It is [set] to the empty sequence. *)
Definition clearUserMessageHistory (u : UserKey) : M unit :=
  emit (EvClearHistory u);;
  match store_fault env (OpClear u) with
  | Some e => throw e
  | None => λ st, (inr tt, <[u := []]> st, [])
  end.

(** ** The completion provider *)

(** [getAiResponse] and [getCredits] of [utils.ts] call the provider: the
    call is recorded and its outcome is the oracle's. *)
Definition getAiResponse (ms : list Message) : M string :=
  emit (EvGetAiResponse ms);;
  match ai_answer env ms with
  | inl e => throw e
  | inr r => ret r
  end.

Definition getCredits : M Credits :=
  emit EvGetCredits;;
  match credits_answer env with
  | inl e => throw e
  | inr c => ret c
  end.

(** * Middleware (grammY) *)

(** A middleware receives the context and its continuation [next]. *)
Definition Middleware : Type := BotContext → M unit → M unit.

(** [Composer.command(name, handler)]: the handler runs on updates whose text
    starts with the command, and every other update is passed on. *)
Definition command (name : string) (handler : BotContext → M unit)
    : Middleware :=
  λ ctx next,
    if strict_eq_str (ctx_command ctx) name then handler ctx else next.

(** [Composer.on("message", handler)] *)
Definition on_message_update (handler : BotContext → M unit) : Middleware :=
  λ ctx next, if ctx_is_message ctx then handler ctx else next.

(** [Composer.errorBoundary(errorHandler, ...middleware)] installs
<<
    async (ctx, next) => {
      let nextCalled = false;
      const cont = () => ((nextCalled = true), Promise.resolve());
      try { await bound(ctx, cont); }
      catch (err) { nextCalled = false; await errorHandler(err, cont); }
      if (nextCalled) await next();
    }
>>
    where [bound] is the composition of the protected [middleware].  A
    protected middleware is given here as a handler that returns whether it
    called [cont]. *)
Definition errorBoundary (errorHandler : Error → M unit)
    (bound : BotContext → M bool) : Middleware :=
  λ ctx next,
    let! nextCalled :=
      try_catch (bound ctx) (λ err, errorHandler err;; ret false) in
    when nextCalled next.

(** The composition of no middleware at all: it calls [cont] at once. *)
Definition pass : BotContext → M bool := λ _, ret true.

(** Middleware installed one after the other on the bot. *)
Definition compose (ms : list Middleware) : BotContext → M unit :=
  λ ctx, foldr (λ m next, m ctx next) (ret tt) ms.

(** * The handlers of [index.ts] *)

Definition denial_text : string :=
  "Sorry, you are not allowed. This is personal AI Bot".
Definition welcome_text : string :=
  "Welcome! I will be your personal AI Assistant.".
Definition no_user_text : string := "No User Found".
Definition cleared_text : string := "Your dialogue has been cleared".
Definition no_message_text : string := "No message".
Definition error_text : string :=
  "Sorry an error has occured, please try again later.".
Definition history_empty_text : string := "History is empty".

Definition credits_text (c : Credits) : string :=
  "Here is your total <strong>OpenAI</strong> usage amount:" +:+ nl +:+
  "Used balance: <strong>" +:+ total_used c +:+ "</strong>" +:+ nl +:+
  "Available balance: <strong>" +:+ total_available c +:+ "</strong>".

Definition advisory_text (aprxTokens : Z) : string :=
  "Just a heads up, you've used around *" +:+ pretty aprxTokens +:+
  "* tokens for this query. To help you manage your token usage, we recommend running the */clear* command every so oftens usage.".

(** [bot.use(async (ctx, next) => ...)], lines 57-67 *)
Definition use_authorize : Middleware :=
  λ ctx next,
    let isOwner :=
      existsb (λ user, strict_eq_str (ctx_username ctx) user) users in
    if negb isOwner then reply denial_text None
    else next.

(** [bot.command("start", ...)] *)
Definition command_start (ctx : BotContext) : M unit :=
  reply welcome_text None.

(** [bot.command("credits", ...)], lines 73-83 *)
Definition command_credits (ctx : BotContext) : M unit :=
  let! c := getCredits in
  reply_logged (credits_text c) (Some HTML).

(** [bot.command("ping", ...)] *)
Definition command_ping (ctx : BotContext) : M unit :=
  reply ("Pong! " +:+ date_string env +:+ " " +:+ date_now env) None.

(** [bot.command("history", ...)], lines 87-103 *)
Definition command_history (ctx : BotContext) : M unit :=
  let userId := getUserId env ctx in
  if falsy_id userId then reply no_user_text None
  else
    let! history := getUserMessageHistory userId in
    let aprxTokens :=
      estimateTokens env
        (remove_newlines (formatMessageHistory env history)) in
    console_log (remove_newlines (formatMessageHistory env history));;
    let shown :=
      formatMessageHistory env
        (filter (λ m, role m ≠ system) history) in
    let text :=
      if truthy shown
      then shown +:+ "Approximate token usage for your query: "
                 +:+ pretty aprxTokens
      else history_empty_text in
    reply text None.

(** [bot.command("clear", ...)], lines 109-119 *)
Definition command_clear (ctx : BotContext) : M unit :=
  let userId := getUserId env ctx in
  if falsy_id userId then reply no_user_text None
  else
    clearUserMessageHistory userId;;
    reply cleared_text None.

(** [bot.on("message", ...)], lines 121-163 *)
Definition on_message (ctx : BotContext) : M unit :=
  try_catch
    (let userId := user_id <$> ctx_from ctx in
     let receivedMessage := ctx_text ctx in
     when (negb (truthy_opt receivedMessage))
       (reply_detached no_message_text None);;
     let! history := getUserMessageHistory userId in
     let aprxTokens :=
       estimateTokens env (formatMessageHistory env history) in
     when (2000 <? aprxTokens)%Z
       (reply (advisory_text aprxTokens) (Some Markdown));;
     let message :=
       {| role := user; content := or_else receivedMessage "" |} in
     let! aiResponse := getAiResponse (history ++ [message]) in
     updateUserMessageHistory userId
       (history ++
        [message; {| role := assistant; content := aiResponse +:+ nl |}]);;
     reply_logged aiResponse None)
    (λ error,
       console_error error;;
       reply_detached error_text None).

(** The bot: the middleware in the order in which the source installs it.
    [bot.errorBoundary] is given an error handler and no middleware. *)
Definition bot : BotContext → M unit :=
  compose
    [ use_authorize;
      command "start" command_start;
      command "credits" command_credits;
      command "ping" command_ping;
      command "history" command_history;
      errorBoundary console_error pass;
      command "clear" command_clear;
      on_message_update on_message ].

(** The commands for which the bot has a handler. *)
Definition handled (c : string) : Prop :=
  c = "start" ∨ c = "credits" ∨ c = "ping" ∨ c = "history" ∨ c = "clear".

(** * The HTTP entry point *)

Record Request := {
  (** [new URL(req.url).searchParams.get("secret")] *)
  req_secret : option string;
  (** the update carried by the body *)
  req_update : BotContext
}.

Record Response := { status : Z; body : string }.

(** [webhookCallback(bot, "std/http", "throw", 40_000)]: the update is run
    through the bot and answered with 200; what the middleware throws is
    thrown to the caller.  The 40 s limit is not modelled. *)
Definition handleUpdate (req : Request) : M Response :=
  bot (req_update req);;
  ret {| status := 200; body := "" |}.

(** The function given to [serve], lines 186-200.  Its result is [None] when
    the function ends without returning a [Response]. *)
Definition serve (req : Request) : M (option Response) :=
  try_catch
    (let isAllowed :=
       strict_eq_null_undef (req_secret req) (FUNCTION_SECRET penv) in
     if negb isAllowed
     then ret (Some {| status := 405; body := "not allowed" |})
     else
       let! res := handleUpdate req in
       ret (Some res))
    (λ err,
       console_error err;;
       ret None).

End Bot.

(** * Startup *)

(** ** The values of [JSON.parse] *)

(** A number as [JSON.parse] can give it: a finite one, kept as the fraction
    it is equal to (with [-0] as [0]), or an infinite one. *)
Inductive JsNumber :=
| Fraction (numerator : Z) (denominator : positive)
| Infinite.

#[local] Unset Elimination Schemes.
Inductive Json :=
| JNull
| JBool (b : bool)
| JNumber (x : JsNumber)
| JString (s : string)
| JArray (items : list Json)
| JObject (fields : list (string * Json)).
#[local] Set Elimination Schemes.

(** The number [n]. *)
Definition number_of_nat (n : nat) : Json :=
  JNumber (Fraction (Z.of_nat n) 1).

(** Truthiness of a value: [null], [false], zero and the empty string are
    falsy, and so is [undefined]. *)
Definition js_truthy (v : Json) : bool :=
  match v with
  | JNull => false
  | JBool b => b
  | JNumber (Fraction n _) => negb (n =? 0)%Z
  | JNumber Infinite => true
  | JString s => truthy s
  | JArray _ | JObject _ => true
  end.

Definition js_truthy_opt (v : option Json) : bool :=
  match v with
  | Some w => js_truthy w
  | None => false
  end.

(** The property [name] of an object read by [JSON.parse]: of two fields of
    the same name the later one counts. *)
Fixpoint own_property (name : string) (fields : list (string * Json))
    : option Json :=
  match fields with
  | [] => None
  | (k, v) :: rest =>
      match own_property name rest with
      | Some w => Some w
      | None => if bool_decide (k = name) then Some v else None
      end
  end.

Definition null_length_text : Error :=
  "TypeError: Cannot read properties of null (reading 'length')".

(** [v.length]: a [TypeError] on [null], [undefined] on a boolean or a
    number, the number of elements of an array, the length of a string
    (of which the source only tests whether it is zero), and the property
    of that name of an object. *)
Definition length_property (v : Json) : Error + option Json :=
  match v with
  | JNull => inl null_length_text
  | JBool _ | JNumber _ => inr None
  | JString s => inr (Some (number_of_nat (String.length s)))
  | JArray items => inr (Some (number_of_nat (length items)))
  | JObject fields => inr (own_property "length" fields)
  end.

(** What startup leaves to the rest of the program: [users] is whatever
    value [JSON.parse] gave, which the source takes for a [string[]]. *)
Record Config := { cfg_users : Json; cfg_botToken : string }.

Definition token_missing_text : Error :=
  "Please specify the Telegram Bot Token.".
Definition users_missing_text : Error :=
  "Please specify the users that have access to the bot.".

Section Startup.

(** [JSON.parse]; a [SyntaxError] is an error result. *)
Variable JSON_parse : string → Error + Json.

(** Lines 19-38: the top-level statements that read the configuration.
    An error result is an exception thrown at the top level of the module,
    which ends the process before anything is served.  The registration of
    the command list with Telegram, which follows the installation of the
    handlers, is a call to the network and is left out. *)
Definition startup (penv : ProcessEnv) : Error + Config :=
  match JSON_parse (or_else (USERS penv) "[]") with
  | inl e => inl e
  | inr users =>
      let botToken := or_else (BOT_TOKEN penv) "" in
      if negb (truthy botToken) then inl token_missing_text
      else
        match length_property users with
        | inl e => inl e
        | inr len =>
            if negb (js_truthy_opt len) then inl users_missing_text
            else inr {| cfg_users := users; cfg_botToken := botToken |}
        end
  end.

End Startup.

(** ** A reader for plain strings and arrays of plain strings

    It accepts [[ "a", "b" ]] with optional spaces around the brackets and
    the commas, and ["a"] alone, for strings without escape sequences or
    control characters; anything else is a [SyntaxError].  On the texts it
    accepts it agrees with [JSON.parse]. *)

Definition quote_char : ascii := "034"%char.
Definition backslash_char : ascii := "092"%char.

Inductive ScanState :=
| AtStart
| AfterOpen
| InString (acc : string)
| AfterString
| AfterComma
| AfterClose.

Definition syntax_error : Error := "SyntaxError".

(** [acc] holds the characters of the current string in reverse, and [out]
    the strings read so far in reverse. *)
Fixpoint scan_array (st : ScanState) (out : list string) (s : string)
    : Error + list string :=
  match s with
  | EmptyString =>
      match st with
      | AfterClose => inr (rev out)
      | _ => inl syntax_error
      end
  | String c r =>
      match st with
      | InString acc =>
          if bool_decide (c = quote_char)
          then scan_array AfterString (String.rev acc :: out) r
          else if bool_decide (c = backslash_char) then inl syntax_error
          else if (nat_of_ascii c <? 32)%nat then inl syntax_error
          else scan_array (InString (String c acc)) out r
      | _ =>
          if bool_decide (c = " "%char) then scan_array st out r
          else
            match st with
            | AtStart =>
                if bool_decide (c = "["%char) then scan_array AfterOpen out r
                else inl syntax_error
            | AfterOpen =>
                if bool_decide (c = "]"%char) then scan_array AfterClose out r
                else if bool_decide (c = quote_char)
                then scan_array (InString "") out r
                else inl syntax_error
            | AfterString =>
                if bool_decide (c = "]"%char) then scan_array AfterClose out r
                else if bool_decide (c = ","%char)
                then scan_array AfterComma out r
                else inl syntax_error
            | AfterComma =>
                if bool_decide (c = quote_char)
                then scan_array (InString "") out r
                else inl syntax_error
            | _ => inl syntax_error
            end
      end
  end.

Definition parse_string_array (s : string) : Error + list string :=
  scan_array AtStart [] s.

(** The rest of a string literal after its opening quote. *)
Fixpoint literal_body (s : string) : option string :=
  match s with
  | EmptyString => None
  | String c r =>
      if bool_decide (c = quote_char)
      then match r with EmptyString => Some EmptyString | _ => None end
      else if bool_decide (c = backslash_char) then None
      else if (nat_of_ascii c <? 32)%nat then None
      else String c <$> literal_body r
  end.

Definition parse_json_text (s : string) : Error + Json :=
  match parse_string_array s with
  | inr items => inr (JArray (JString <$> items))
  | inl e =>
      match s with
      | String c r =>
          if bool_decide (c = quote_char)
          then match literal_body r with
               | Some t => inr (JString t)
               | None => inl e
               end
          else inl e
      | EmptyString => inl e
      end
  end.

(** The JSON text of a string in which no character needs an escape. *)
Definition json_str (s : string) : string :=
  String quote_char (s +:+ String quote_char "").

(** * A concrete instance of the collaborators

    Used to run the handlers on examples.  [formatMessageHistory] follows the
    documented format, one line [role: content] per message; the estimate is
    a quarter of the length; every service works. *)

Definition role_name (r : Role) : string :=
  match r with
  | system => "system"
  | user => "user"
  | assistant => "assistant"
  end.

Definition format_lines (ms : list Message) : string :=
  foldr (λ m acc, role_name (role m) +:+ ": " +:+ content m +:+ nl +:+ acc)
        "" ms.

Definition quarter_length (s : string) : Z :=
  (Z.of_nat (String.length s) / 4)%Z.

Definition working (answer : list Message → Error + string) : Collaborators :=
  {| estimateTokens := quarter_length;
     formatMessageHistory := format_lines;
     getUserId := λ ctx, user_id <$> ctx_from ctx;
     ai_answer := answer;
     credits_answer := inr {| total_available := "18"; total_used := "0.5" |};
     store_fault := λ _, None;
     send_fault := λ _ _, None;
     date_string := "Mon Nov 02 2026";
     date_now := "1793577600000" |}.

Definition alice : User := {| user_id := 42; user_username := Some "alice" |}.

Definition text_message (from : option User) (text : string) : BotContext :=
  {| ctx_from := from; ctx_is_message := true;
     ctx_text := Some text; ctx_command := None |}.

Definition command_message (from : option User) (name : string)
    : BotContext :=
  {| ctx_from := from; ctx_is_message := true;
     ctx_text := Some ("/" +:+ name); ctx_command := Some name |}.

(** A message that carries a photo and no text. *)
Definition photo_message (from : option User) : BotContext :=
  {| ctx_from := from; ctx_is_message := true;
     ctx_text := None; ctx_command := None |}.

Definition mallory : User :=
  {| user_id := 666; user_username := Some "mallory" |}.


(** The same services when the usage query fails with [e]. *)
Definition without_credits (e : Error) : Collaborators :=
  {| estimateTokens := quarter_length;
     formatMessageHistory := format_lines;
     getUserId := λ ctx, user_id <$> ctx_from ctx;
     ai_answer := λ _, inr "hi there";
     credits_answer := inl e;
     store_fault := λ _, None;
     send_fault := λ _ _, None;
     date_string := "Mon Nov 02 2026";
     date_now := "1793577600000" |}.

(** Services of which the estimator, the provider, the storage and the
    delivery of replies are given. *)
Definition services (estimator : string → Z)
    (answer : list Message → Error + string)
    (storage : StoreOp → option Error)
    (sending : string → option ParseMode → option Error) : Collaborators :=
  {| estimateTokens := estimator;
     formatMessageHistory := format_lines;
     getUserId := λ ctx, user_id <$> ctx_from ctx;
     ai_answer := answer;
     credits_answer := inr {| total_available := "18"; total_used := "0.5" |};
     store_fault := storage;
     send_fault := sending;
     date_string := "Mon Nov 02 2026";
     date_now := "1793577600000" |}.

(** A storage that cannot be read, and one that cannot be written. *)
Definition unreadable (e : Error) (op : StoreOp) : option Error :=
  match op with
  | OpGet _ => Some e
  | _ => None
  end.

Definition read_only (e : Error) (op : StoreOp) : option Error :=
  match op with
  | OpGet _ => None
  | _ => Some e
  end.

(** A chat in which Markdown replies are refused. *)
Definition no_markdown (e : Error) (text : string)
    (mode : option ParseMode) : option Error :=
  match mode with
  | Some Markdown => Some e
  | _ => None
  end.

(** An update that is not a message, such as an edited message. *)
Definition edited_message (from : option User) : BotContext :=
  {| ctx_from := from; ctx_is_message := false;
     ctx_text := None; ctx_command := None |}.

(** A history of one exchange. *)
Definition small_talk : list Message :=
  [ {| role := user; content := "good morning" |};
    {| role := assistant; content := "good morning to you" +:+ nl |} ].

(** ** Events of a reply, by the way it is sent *)

(** Result of [await ctx.reply(text, opts)]. *)
Definition send_result (env : Collaborators) (text : string)
    (mode : option ParseMode) : Error + unit :=
  match send_fault env text mode with
  | Some e => inl e
  | None => inr tt
  end.

(** Events of a reply that is not awaited. *)
Definition detached_events (env : Collaborators) (text : string)
    (mode : option ParseMode) : list Event :=
  EvReply text mode ::
  match send_fault env text mode with
  | Some e => [EvUnhandledRejection e]
  | None => []
  end.

(** Events of a reply whose failure is logged. *)
Definition logged_events (env : Collaborators) (text : string)
    (mode : option ParseMode) : list Event :=
  EvReply text mode ::
  match send_fault env text mode with
  | Some e => [EvConsoleError e]
  | None => []
  end.

(** * Properties *)

Lemma or_else_empty (x : option string) : or_else x "" = default "" x.
Proof. destruct x as [[|c s]|]; reflexivity. Qed.

Lemma reply_run env text mode st :
  reply env text mode st = (send_result env text mode, st, [EvReply text mode]).
Proof.
  unfold reply, send_result, bind, emit, throw, ret.
  destruct (send_fault env text mode); reflexivity.
Qed.

Lemma reply_logged_run env text mode st :
  reply_logged env text mode st = (inr tt, st, logged_events env text mode).
Proof.
  unfold reply_logged, try_catch, logged_events. rewrite reply_run.
  unfold send_result. destruct (send_fault env text mode); reflexivity.
Qed.

Lemma reply_detached_run env text mode st :
  reply_detached env text mode st = (inr tt, st, detached_events env text mode).
Proof.
  unfold reply_detached, try_catch, detached_events. rewrite reply_run.
  unfold send_result. destruct (send_fault env text mode); reflexivity.
Qed.

(** ** The conversation turn *)

(** Unfolds the monad and the collaborator calls of a handler. *)
Ltac run_handler :=
  unfold bind, try_catch, when, ret, throw, emit, console_error, console_log,
    getUserMessageHistory, updateUserMessageHistory, clearUserMessageHistory,
    getAiResponse, getCredits;
  cbn beta iota.

(** Brings both sides of an equation between traces to one shape. *)
Ltac same_trace :=
  repeat (progress (cbn [app]; rewrite <- ?app_assoc)); reflexivity.

(** Proves that an event is not in a trace whose events are all of other
    shapes. *)
Ltac absent_event :=
  let Hin := fresh "Hin" in
  intros Hin;
  repeat (apply elem_of_cons in Hin as [Hin|Hin]; [discriminate Hin|]);
  by apply elem_of_nil in Hin.

Section Turn.

Variable env : Collaborators.
Variable ctx : BotContext.
Variable st : Store.

(** [ctx?.from?.id], the history stored for it when the turn starts, the
    estimate of its load, and the message built from the update. *)
Let u : UserKey := user_id <$> ctx_from ctx.
Let h : list Message := default [] (st !! u).
Let estimate : Z := estimateTokens env (formatMessageHistory env h).
Let message : Message :=
  {| role := user; content := default "" (ctx_text ctx) |}.

(** What the turn does before it calls the provider. *)
Let opening : list Event :=
  (if truthy_opt (ctx_text ctx) then []
   else detached_events env no_message_text None) ++
  [EvGetHistory u] ++
  (if (2000 <? estimate)%Z
   then [EvReply (advisory_text estimate) (Some Markdown)] else []).

(** The history is read, and the advisory, when there is one, is delivered:
    together they say that the turn gets as far as the provider. *)
Hypothesis history_read : store_fault env (OpGet u) = None.
Hypothesis advisory_delivered :
  (2000 < estimate)%Z →
  send_fault env (advisory_text estimate) (Some Markdown) = None.

Lemma turn_until_provider :
  on_message env ctx st =
  match ai_answer env (h ++ [message]) with
  | inl e =>
      (inr tt, st,
       opening ++ [EvGetAiResponse (h ++ [message]); EvConsoleError e] ++
       detached_events env error_text None)
  | inr r =>
      let written :=
        h ++ [message; {| role := assistant; content := r +:+ nl |}] in
      match store_fault env (OpSet u written) with
      | Some e =>
          (inr tt, st,
           opening ++
           [EvGetAiResponse (h ++ [message]); EvUpdateHistory u written;
            EvConsoleError e] ++
           detached_events env error_text None)
      | None =>
          (inr tt, <[u := written]> st,
           opening ++
           [EvGetAiResponse (h ++ [message]); EvUpdateHistory u written] ++
           logged_events env r None)
      end
  end.
Proof.
  unfold on_message. run_handler.
  rewrite or_else_empty. fold u. rewrite history_read. run_handler.
  assert (Hwarn : ∀ s : Store,
    (if (2000 <? estimate)%Z
     then reply env (advisory_text estimate) (Some Markdown)
     else λ st0 : Store, (inr (), st0, [])) s =
    (inr tt, s, if (2000 <? estimate)%Z
                then [EvReply (advisory_text estimate) (Some Markdown)]
                else [])).
  { intros s. destruct (2000 <? estimate)%Z eqn:Hlt; [|reflexivity].
    rewrite reply_run. unfold send_result.
    rewrite advisory_delivered; [reflexivity|]. by apply Z.ltb_lt. }
  subst opening.
  destruct (truthy_opt (ctx_text ctx)); cbn [negb];
    rewrite ?reply_detached_run; fold h; fold estimate; rewrite Hwarn;
    fold message;
    (destruct (ai_answer env (h ++ [message])) as [e|r];
     [ rewrite reply_detached_run; same_trace
     | cbn zeta;
       destruct (store_fault env (OpSet u _)) as [e|];
       rewrite ?reply_detached_run, ?reply_logged_run; same_trace ]).
Qed.

(** C1 (turn atomicity).  When the call to the completion provider fails,
    the handler does not throw, the stored histories are exactly those from
    before the turn, no write of a history is even attempted, and what
    follows the failed call is the log of the error and the generic error
    reply. *)
Theorem failed_completion_keeps_history (e : Error) :
  ai_answer env (h ++ [message]) = inl e →
  ∃ evs,
    on_message env ctx st = (inr tt, st, evs) ∧
    evs = opening ++
          [EvGetAiResponse (h ++ [message]); EvConsoleError e] ++
          detached_events env error_text None ∧
    (∀ k ms, EvUpdateHistory k ms ∉ evs).
Proof.
  intros Hfail. rewrite turn_until_provider, Hfail.
  eexists; split; [reflexivity|]. split; [reflexivity|].
  intros k ms. subst opening. unfold detached_events.
  destruct (truthy_opt (ctx_text ctx)), (2000 <? estimate)%Z,
    (send_fault env error_text None), (send_fault env no_message_text None);
    cbn [app]; absent_event.
Qed.

(** C2 (persisted turn shape).  In a turn whose provider call returns [r]
    and whose write succeeds, the history written back is the prior history,
    then one user message with the received text, then one assistant message
    whose content is [r] followed by one newline; the reply that is sent is
    [r] itself. *)
Theorem persisted_turn_shape (r : string) :
  let written :=
    h ++ [ {| role := user; content := default "" (ctx_text ctx) |};
           {| role := assistant; content := r +:+ nl |} ] in
  ai_answer env (h ++ [message]) = inr r →
  store_fault env (OpSet u written) = None →
  ∃ st' before after,
    on_message env ctx st =
      (inr tt, st',
       before ++ [EvUpdateHistory u written; EvReply r None] ++ after) ∧
    st' = <[u := written]> st ∧
    default [] (st' !! u) = written ∧
    (∀ k ms, EvUpdateHistory k ms ∉ before ++ after).
Proof.
  intros written Hr Hw. rewrite turn_until_provider, Hr. cbn zeta.
  change (h ++ [message; {| role := assistant; content := r +:+ nl |}])
    with written.
  rewrite Hw.
  exists (<[u := written]> st),
    (opening ++ [EvGetAiResponse (h ++ [message])]),
    (match send_fault env r None with
     | Some e => [EvConsoleError e] | None => [] end).
  split; [unfold logged_events; f_equal; same_trace|].
  split; [reflexivity|]. split; [by rewrite lookup_insert_eq|].
  intros k ms. subst opening. unfold detached_events.
  destruct (truthy_opt (ctx_text ctx)), (2000 <? estimate)%Z,
    (send_fault env r None), (send_fault env no_message_text None);
    cbn [app]; absent_event.
Qed.

(** C9 (a message without text still completes a turn).  When the text of
    the message is absent, the handler sends "No message" and goes on: it
    reads the history, calls the provider with the history followed by a
    user message of empty content, writes the history with that message and
    the answer, and sends the answer. *)
Theorem textless_message_completes_turn (r : string) :
  let blank := {| role := user; content := "" |} in
  let written :=
    h ++ [blank; {| role := assistant; content := r +:+ nl |}] in
  ctx_text ctx = None →
  ai_answer env (h ++ [blank]) = inr r →
  store_fault env (OpSet u written) = None →
  on_message env ctx st =
    (inr tt, <[u := written]> st,
     detached_events env no_message_text None ++
     [EvGetHistory u] ++
     (if (2000 <? estimate)%Z
      then [EvReply (advisory_text estimate) (Some Markdown)] else []) ++
     [EvGetAiResponse (h ++ [blank]); EvUpdateHistory u written] ++
     logged_events env r None).
Proof.
  intros blank written Htext Hr Hw. rewrite turn_until_provider.
  subst opening message. rewrite Htext. cbn [default truthy_opt].
  fold blank. rewrite Hr. cbn zeta. fold written. rewrite Hw.
  f_equal. same_trace.
Qed.

End Turn.

(** ** The turn under any behaviour of the collaborators *)

(** Runs a handler by cases on what its collaborators answer. *)
Ltac by_cases_on_collaborators :=
  repeat first
    [ progress (run_handler; cbn [negb])
    | rewrite reply_detached_run
    | rewrite reply_logged_run
    | rewrite reply_run; unfold send_result
    | match goal with
      | |- context [match send_fault ?e ?t ?m with _ => _ end] =>
          destruct (send_fault e t m) eqn:?
      | |- context [match store_fault ?e ?o with _ => _ end] =>
          destruct (store_fault e o) eqn:?
      | |- context [match ai_answer ?e ?ms with _ => _ end] =>
          destruct (ai_answer e ms) eqn:?
      | |- context [if ?b then _ else _] => destruct b eqn:?
      end ].

(** The handler of messages never throws, and it leaves the histories either
    as they were or with the whole turn written: the user message and the
    assistant message together. *)
Lemma turn_is_all_or_nothing (env : Collaborators) (ctx : BotContext)
    (st : Store) :
  let u := user_id <$> ctx_from ctx in
  let h := default [] (st !! u) in
  let message := {| role := user; content := default "" (ctx_text ctx) |} in
  ∃ evs,
    on_message env ctx st = (inr tt, st, evs) ∨
    ∃ r, ai_answer env (h ++ [message]) = inr r ∧
         on_message env ctx st =
           (inr tt,
            <[u := h ++ [message;
                         {| role := assistant; content := r +:+ nl |}]]> st,
            evs).
Proof.
  intros u h message.
  unfold on_message. rewrite or_else_empty. fold u.
  by_cases_on_collaborators.
  all: eexists;
    first [ left; reflexivity
          | right; eexists; split; [eassumption|reflexivity] ].
Qed.

(** The advisory reply is awaited inside the [try] block: when Telegram
    fails to deliver it, the turn ends there, with the error logged and the
    generic reply, and the provider is not called. *)
Lemma undelivered_advisory_ends_turn (env : Collaborators) (ctx : BotContext)
    (st : Store) (e : Error) :
  let u := user_id <$> ctx_from ctx in
  let h := default [] (st !! u) in
  let estimate := estimateTokens env (formatMessageHistory env h) in
  store_fault env (OpGet u) = None →
  (2000 < estimate)%Z →
  send_fault env (advisory_text estimate) (Some Markdown) = Some e →
  on_message env ctx st =
    (inr tt, st,
     (if truthy_opt (ctx_text ctx) then []
      else detached_events env no_message_text None) ++
     [EvGetHistory u; EvReply (advisory_text estimate) (Some Markdown);
      EvConsoleError e] ++
     detached_events env error_text None).
Proof.
  intros u h estimate Hread Hover Hsend.
  apply Z.ltb_lt in Hover.
  unfold on_message. run_handler. fold u. rewrite Hread. run_handler.
  destruct (truthy_opt (ctx_text ctx)); cbn [negb];
    rewrite ?reply_detached_run; fold h; fold estimate; rewrite Hover;
    rewrite reply_run; unfold send_result;
    rewrite Hsend, reply_detached_run; same_trace.
Qed.


(** ** The authorization middleware *)

Section Gate.

Variable env : Collaborators.
Variable users : list string.

Lemma strict_eq_str_true (a : option string) (b : string) :
  strict_eq_str a b = true ↔ a = Some b.
Proof.
  destruct a as [s|]; cbn; [|split; discriminate].
  rewrite bool_decide_eq_true. split; congruence.
Qed.

Lemma owner_iff (ctx : BotContext) :
  existsb (λ user, strict_eq_str (ctx_username ctx) user) users = true ↔
  ∃ name, ctx_username ctx = Some name ∧ name ∈ users.
Proof.
  rewrite existsb_exists. split.
  - intros (name & Hin & Heq). exists name.
    by rewrite <- strict_eq_str_true, list_elem_of_In.
  - intros (name & Heq & Hin). exists name.
    by rewrite strict_eq_str_true, <- list_elem_of_In.
Qed.

Lemma stranger_is_denied (ctx : BotContext) (next : M unit) :
  (∀ name, ctx_username ctx = Some name → name ∉ users) →
  use_authorize env users ctx next = reply env denial_text None.
Proof.
  intros Hout. unfold use_authorize.
  destruct (existsb _ users) eqn:Howner; [|reflexivity].
  apply owner_iff in Howner as (name & Heq & Hin).
  destruct (Hout name Heq Hin).
Qed.

Lemma owner_is_let_in (ctx : BotContext) (next : M unit) :
  (∃ name, ctx_username ctx = Some name ∧ name ∈ users) →
  use_authorize env users ctx next = next.
Proof.
  intros Howner. apply owner_iff in Howner.
  unfold use_authorize. by rewrite Howner.
Qed.

(** C6 (authorization gate).  When the username of the sender is not in the
    allow-list (or there is no sender, or no username), the middleware
    answers with the denial whatever comes after it, and the whole run of
    the bot is that one reply: no history is read or written, the provider
    is not called, and the histories are untouched. *)
Theorem authorization_gate (ctx : BotContext) (st : Store) :
  (∀ name, ctx_username ctx = Some name → name ∉ users) →
  (∀ next, use_authorize env users ctx next = reply env denial_text None) ∧
  bot env users ctx st =
    (send_result env denial_text None, st, [EvReply denial_text None]).
Proof.
  intros Hout. split.
  - intros next. by apply stranger_is_denied.
  - unfold bot, compose. cbn [foldr].
    rewrite stranger_is_denied by done. apply reply_run.
Qed.

(** C3, as the code has it.  An update without a sender has no username, so
    the authorization middleware denies it before any handler: the only
    call is the denial reply.  The reply "No User Found" is that of the
    handlers of [/history] and [/clear], which end on it without touching
    the store when [getUserId] gives nothing. *)
Theorem no_sender_no_collaborator_call (ctx : BotContext) (st : Store) :
  (ctx_from ctx = None →
   bot env users ctx st =
     (send_result env denial_text None, st, [EvReply denial_text None])) ∧
  (falsy_id (getUserId env ctx) = true →
   command_history env ctx st =
     (send_result env no_user_text None, st, [EvReply no_user_text None]) ∧
   command_clear env ctx st =
     (send_result env no_user_text None, st, [EvReply no_user_text None])).
Proof.
  split.
  - intros Hfrom. unfold bot, compose. cbn [foldr].
    rewrite stranger_is_denied; [apply reply_run|].
    intros name. unfold ctx_username. rewrite Hfrom. discriminate.
  - intros Hid. unfold command_history, command_clear. rewrite Hid.
    split; apply reply_run.
Qed.

End Gate.

(** ** Failures in the command handlers *)

Section Commands.

Variable env : Collaborators.
Variable users : list string.
Variable penv : ProcessEnv.

Lemma strict_eq_null_undef_true (a b : option string) :
  strict_eq_null_undef a b = true ↔ ∃ s, a = Some s ∧ b = Some s.
Proof.
  destruct a as [s|], b as [t|]; cbn;
    try (split; [discriminate|intros (? & ? & ?); discriminate]).
  rewrite bool_decide_eq_true. split.
  - intros ->. eauto.
  - intros (? & ? & ?). congruence.
Qed.

Lemma command_hit name handler (ctx : BotContext) (next : M unit) :
  ctx_command ctx = Some name →
  command name handler ctx next = handler ctx.
Proof.
  intros Hcmd. unfold command, strict_eq_str. rewrite Hcmd.
  by rewrite bool_decide_eq_true_2.
Qed.

Lemma command_miss name handler (ctx : BotContext) (next : M unit) c :
  ctx_command ctx = Some c → c ≠ name →
  command name handler ctx next = next.
Proof.
  intros Hcmd Hne. unfold command, strict_eq_str. rewrite Hcmd.
  by rewrite bool_decide_eq_false_2.
Qed.

(** Looks for the handler of the command [Hcmd] along the middleware. *)
Ltac dispatch Hcmd :=
  unfold bot, compose; cbn [foldr];
  rewrite owner_is_let_in by done;
  repeat (rewrite (command_miss _ _ _ _ _ Hcmd) by discriminate).

(** The bot, for a sender of the allow-list who sends a command. *)
Lemma bot_credits (ctx : BotContext) :
  (∃ name, ctx_username ctx = Some name ∧ name ∈ users) →
  ctx_command ctx = Some "credits" →
  bot env users ctx = command_credits env ctx.
Proof.
  intros Howner Hcmd. dispatch Hcmd. by rewrite command_hit.
Qed.

Lemma bot_history (ctx : BotContext) :
  (∃ name, ctx_username ctx = Some name ∧ name ∈ users) →
  ctx_command ctx = Some "history" →
  bot env users ctx = command_history env ctx.
Proof.
  intros Howner Hcmd. dispatch Hcmd. by rewrite command_hit.
Qed.

Lemma bot_clear (ctx : BotContext) (st : Store) :
  (∃ name, ctx_username ctx = Some name ∧ name ∈ users) →
  ctx_command ctx = Some "clear" →
  bot env users ctx st = command_clear env ctx st.
Proof.
  intros Howner Hcmd. dispatch Hcmd.
  unfold errorBoundary, pass, try_catch, bind, when, ret. cbn beta iota.
  rewrite command_hit by done.
  destruct (command_clear env ctx st) as [[res st'] evs]. reflexivity.
Qed.

(** C4, on [/credits].  When the usage query fails, the error leaves the bot
    as a thrown error and nothing was sent to the user; it is the function
    given to [serve] that catches it, logs it, and ends without a
    response. *)
Theorem credits_failure_leaves_the_bot (req : Request) (st : Store)
    (e : Error) :
  (∃ name, ctx_username (req_update req) = Some name ∧ name ∈ users) →
  (∃ s, req_secret req = Some s ∧ FUNCTION_SECRET penv = Some s) →
  ctx_command (req_update req) = Some "credits" →
  credits_answer env = inl e →
  bot env users (req_update req) st = (inl e, st, [EvGetCredits]) ∧
  serve env users penv req st =
    (inr None, st, [EvGetCredits; EvConsoleError e]).
Proof.
  intros Howner Hsecret Hcmd Hfail.
  assert (Hbot : bot env users (req_update req) st =
                 (inl e, st, [EvGetCredits])).
  { rewrite bot_credits by done. unfold command_credits. run_handler.
    by rewrite Hfail. }
  split; [exact Hbot|].
  apply strict_eq_null_undef_true in Hsecret.
  unfold serve, handleUpdate. run_handler. rewrite Hsecret. cbn [negb].
  by rewrite Hbot.
Qed.

(** The same on [/history], when the store cannot be read. *)
Lemma history_failure_leaves_the_bot (ctx : BotContext) (st : Store)
    (e : Error) :
  (∃ name, ctx_username ctx = Some name ∧ name ∈ users) →
  ctx_command ctx = Some "history" →
  falsy_id (getUserId env ctx) = false →
  store_fault env (OpGet (getUserId env ctx)) = Some e →
  bot env users ctx st = (inl e, st, [EvGetHistory (getUserId env ctx)]).
Proof.
  intros Howner Hcmd Hid Hfail. rewrite bot_history by done.
  unfold command_history. rewrite Hid. run_handler. by rewrite Hfail.
Qed.

(** And on [/clear], which is installed after the error boundary: the
    boundary protects the middleware that is given to it, and it is given
    none. *)
Lemma clear_failure_leaves_the_bot (ctx : BotContext) (st : Store)
    (e : Error) :
  (∃ name, ctx_username ctx = Some name ∧ name ∈ users) →
  ctx_command ctx = Some "clear" →
  falsy_id (getUserId env ctx) = false →
  store_fault env (OpClear (getUserId env ctx)) = Some e →
  bot env users ctx st = (inl e, st, [EvClearHistory (getUserId env ctx)]).
Proof.
  intros Howner Hcmd Hid Hfail. rewrite bot_clear by done.
  unfold command_clear. rewrite Hid. run_handler. by rewrite Hfail.
Qed.

(** ** The secret of the webhook *)

(** C7 (webhook secret gate).  A request whose [secret] parameter is not the
    configured secret is answered with status 405, and nothing of the bot
    has run: no call was made and the histories are untouched. *)
Theorem wrong_secret_is_rejected (req : Request) (st : Store) :
  ¬ (∃ s, req_secret req = Some s ∧ FUNCTION_SECRET penv = Some s) →
  serve env users penv req st =
    (inr (Some {| status := 405; body := "not allowed" |}), st, []).
Proof.
  intros Hwrong. rewrite <- strict_eq_null_undef_true in Hwrong.
  apply not_true_is_false in Hwrong.
  unfold serve. run_handler. by rewrite Hwrong.
Qed.

End Commands.

(** C10 (a missing secret fails closed).  When [FUNCTION_SECRET] is not set,
    every request is answered with status 405, whatever secret it carries
    or not, and nothing of the bot runs. *)
Theorem missing_secret_rejects_all (env : Collaborators) (users : list string)
    (penv : ProcessEnv) (req : Request) (st : Store) :
  FUNCTION_SECRET penv = None →
  serve env users penv req st =
    (inr (Some {| status := 405; body := "not allowed" |}), st, []).
Proof.
  intros Hunset. unfold serve. run_handler. rewrite Hunset.
  by destruct (req_secret req).
Qed.

(** ** Startup *)

(** C8, as the code has it.  A missing allow-list and a missing bot token
    each end startup with an error: the allow-list then counts as empty and
    the token as the empty string, and the error is the message of the
    first check that fails, the token being checked first.  When the token
    is missing and the allow-list is present, the error is the token
    message unless the allow-list is not valid JSON, in which case it is
    the error of [JSON.parse], which is raised before the token is
    looked at. *)
Theorem missing_configuration_aborts
    (JSON_parse : string → Error + Json) (penv : ProcessEnv) :
  JSON_parse "[]" = inr (JArray []) →
  (USERS penv = None →
   startup JSON_parse penv =
     inl (if truthy_opt (BOT_TOKEN penv) then users_missing_text
          else token_missing_text)) ∧
  (BOT_TOKEN penv = None →
   (∀ e, JSON_parse (or_else (USERS penv) "[]") = inl e →
         startup JSON_parse penv = inl e) ∧
   (∀ v, JSON_parse (or_else (USERS penv) "[]") = inr v →
         startup JSON_parse penv = inl token_missing_text)).
Proof.
  intros Hempty. split.
  - intros Husers. unfold startup. rewrite Husers. cbn [or_else].
    rewrite Hempty. by destruct (BOT_TOKEN penv) as [[|c t]|].
  - intros Htoken. unfold startup. rewrite Htoken. cbn.
    split; [intros e Hparse|intros v Hparse]; by rewrite Hparse.
Qed.

(** * Examples *)

(** The provider is down when Alice says hello: nothing is stored, the error
    is logged, and Alice gets the generic reply. *)
Lemma failed_completion_keeps_history_example :
  ∃ evs,
    on_message (working (λ _, inl "provider unavailable"))
      (text_message (Some alice) "hello") ∅ = (inr tt, ∅, evs) ∧
    evs = [ EvGetHistory (Some 42%Z);
            EvGetAiResponse [ {| role := user; content := "hello" |} ];
            EvConsoleError "provider unavailable";
            EvReply error_text None ] ∧
    (∀ k ms, EvUpdateHistory k ms ∉ evs).
Proof.
  exact (failed_completion_keeps_history
           (working (λ _, inl "provider unavailable"))
           (text_message (Some alice) "hello") ∅
           eq_refl (λ _, eq_refl) "provider unavailable" eq_refl).
Defined.

(** Scenario A: from an empty history, "hello" answered by "hi there". *)
Lemma persisted_turn_shape_scenario_A :
  let written :=
    [ {| role := user; content := "hello" |};
      {| role := assistant; content := "hi there" +:+ nl |} ] in
  ∃ st' before after,
    on_message (working (λ _, inr "hi there"))
      (text_message (Some alice) "hello") ∅ =
      (inr tt, st',
       before ++
       [EvUpdateHistory (Some 42%Z) written; EvReply "hi there" None] ++
       after) ∧
    st' = <[Some 42%Z := written]> ∅ ∧
    default [] (st' !! Some 42%Z) = written ∧
    (∀ k ms, EvUpdateHistory k ms ∉ before ++ after).
Proof.
  exact (persisted_turn_shape (working (λ _, inr "hi there"))
           (text_message (Some alice) "hello") ∅
           eq_refl (λ _, eq_refl) "hi there" eq_refl eq_refl).
Defined.



(** Below the threshold there is no advisory, and the rest is the same. *)
Lemma warn_branch_below_threshold :
  let env := working (λ _, inr "and then?") in
  let st : Store := {[ Some 42%Z := small_talk ]} in
  let estimate := estimateTokens env (formatMessageHistory env small_talk) in
  let message := {| role := user; content := "go on" |} in
  let written :=
    small_talk ++
    [message; {| role := assistant; content := "and then?" +:+ nl |}] in
  ¬ (2000 < estimate)%Z ∧
  on_message env (text_message (Some alice) "go on") st =
    (inr tt, <[Some 42%Z := written]> st,
     [ EvGetHistory (Some 42%Z);
       EvGetAiResponse (small_talk ++ [message]);
       EvUpdateHistory (Some 42%Z) written;
       EvReply "and then?" None ]).
Proof. split; [by vm_compute|reflexivity]. Qed.

(** Alice sends a photo. *)
Lemma textless_message_completes_turn_example :
  let blank := {| role := user; content := "" |} in
  let written :=
    [blank; {| role := assistant; content := "nice picture" +:+ nl |}] in
  on_message (working (λ _, inr "nice picture"))
    (photo_message (Some alice)) ∅ =
    (inr tt, {[ Some 42%Z := written ]},
     [ EvReply no_message_text None;
       EvGetHistory (Some 42%Z);
       EvGetAiResponse [blank];
       EvUpdateHistory (Some 42%Z) written;
       EvReply "nice picture" None ]).
Proof.
  exact (textless_message_completes_turn (working (λ _, inr "nice picture"))
           (photo_message (Some alice)) ∅
           eq_refl (λ _, eq_refl) "nice picture" eq_refl eq_refl eq_refl).
Defined.

(** Scenario C: Mallory, who is not in the allow-list, sends [/start]. *)
Lemma authorization_gate_scenario_C :
  (∀ next,
     use_authorize (working (λ _, inr "hi there")) ["alice"]
       (command_message (Some mallory) "start") next =
     reply (working (λ _, inr "hi there")) denial_text None) ∧
  bot (working (λ _, inr "hi there")) ["alice"]
    (command_message (Some mallory) "start") ∅ =
    (inr tt, ∅, [EvReply denial_text None]).
Proof.
  apply (authorization_gate (working (λ _, inr "hi there")) ["alice"]
           (command_message (Some mallory) "start") ∅).
  intros name [= <-]. rewrite list_elem_of_singleton. discriminate.
Defined.

(** An update without sender, and the two handlers that answer
    "No User Found". *)
Lemma no_sender_no_collaborator_call_example :
  let env := working (λ _, inr "hi there") in
  bot env ["alice"] (text_message None "hello") ∅ =
    (inr tt, ∅, [EvReply denial_text None]) ∧
  command_history env (command_message None "history") ∅ =
    (inr tt, ∅, [EvReply no_user_text None]) ∧
  command_clear env (command_message None "clear") ∅ =
    (inr tt, ∅, [EvReply no_user_text None]).
Proof.
  intros env. split.
  - exact (proj1 (no_sender_no_collaborator_call env ["alice"]
                    (text_message None "hello") ∅) eq_refl).
  - split.
    + exact (proj1 (proj2 (no_sender_no_collaborator_call env ["alice"]
                             (command_message None "history") ∅) eq_refl)).
    + exact (proj2 (proj2 (no_sender_no_collaborator_call env ["alice"]
                             (command_message None "clear") ∅) eq_refl)).
Defined.

(** A message without sender is not answered "No User Found": the bot
    answers it with the denial, and the handler of messages, taken alone,
    has no check of the user id at all and runs a whole turn under the
    absent key. *)
Lemma no_user_found_is_not_the_answer :
  let env := working (λ _, inr "hi there") in
  let ctx := text_message None "hello" in
  let written :=
    [ {| role := user; content := "hello" |};
      {| role := assistant; content := "hi there" +:+ nl |} ] in
  (ctx_is_message ctx = true ∧ ctx_from ctx = None) ∧
  bot env ["alice"] ctx ∅ = (inr tt, ∅, [EvReply denial_text None]) ∧
  on_message env ctx ∅ =
    (inr tt, {[ None := written ]},
     [ EvGetHistory None;
       EvGetAiResponse [ {| role := user; content := "hello" |} ];
       EvUpdateHistory None written;
       EvReply "hi there" None ]) ∧
  ¬ (∀ env users ctx st,
       ctx_is_message ctx = true → ctx_from ctx = None →
       ∃ res, bot env users ctx st = (res, st, [EvReply no_user_text None])) ∧
  ¬ (∀ env ctx st,
       ctx_is_message ctx = true → ctx_from ctx = None →
       ∃ res, on_message env ctx st = (res, st, [EvReply no_user_text None])).
Proof.
  intros env ctx written.
  split; [by split|]. split; [reflexivity|]. split; [reflexivity|]. split.
  - intros Hclaim.
    destruct (Hclaim env ["alice"] ctx ∅ eq_refl eq_refl) as [res Hrun].
    discriminate Hrun.
  - intros Hclaim.
    destruct (Hclaim env ctx ∅ eq_refl eq_refl) as [res Hrun].
    vm_compute in Hrun. discriminate Hrun.
Qed.

(** Alice asks for her credits while the usage query is failing: she gets no
    answer at all, and the error is logged by the HTTP function only. *)
Lemma credits_failure_leaves_the_bot_example :
  let env := without_credits "usage endpoint unavailable" in
  let penv :=
    {| USERS := None; BOT_TOKEN := None; FUNCTION_SECRET := Some "s3cret" |} in
  let req :=
    {| req_secret := Some "s3cret";
       req_update := command_message (Some alice) "credits" |} in
  bot env ["alice"] (req_update req) ∅ =
    (inl "usage endpoint unavailable", ∅, [EvGetCredits]) ∧
  serve env ["alice"] penv req ∅ =
    (inr None, ∅,
     [EvGetCredits; EvConsoleError "usage endpoint unavailable"]).
Proof.
  intros env penv req.
  apply (credits_failure_leaves_the_bot env ["alice"] penv req ∅).
  - exists "alice". split; [reflexivity|]. by apply list_elem_of_singleton.
  - exists "s3cret". split; reflexivity.
  - reflexivity.
  - reflexivity.
Defined.

(** A request with a wrong secret, and a request with none. *)
Lemma wrong_secret_is_rejected_example :
  let env := working (λ _, inr "hi there") in
  let penv :=
    {| USERS := None; BOT_TOKEN := None; FUNCTION_SECRET := Some "s3cret" |} in
  serve env ["alice"] penv
    {| req_secret := Some "guess";
       req_update := text_message (Some alice) "hello" |} ∅ =
    (inr (Some {| status := 405; body := "not allowed" |}), ∅, []) ∧
  serve env ["alice"] penv
    {| req_secret := None;
       req_update := text_message (Some alice) "hello" |} ∅ =
    (inr (Some {| status := 405; body := "not allowed" |}), ∅, []).
Proof.
  intros env penv. split.
  - apply (wrong_secret_is_rejected env ["alice"] penv).
    intros (s & [= <-] & [=]).
  - apply (wrong_secret_is_rejected env ["alice"] penv).
    intros (s & [=] & _).
Defined.

(** With the right secret the update reaches the bot. *)
Lemma right_secret_is_served :
  serve (working (λ _, inr "hi there")) ["alice"]
    {| USERS := None; BOT_TOKEN := None; FUNCTION_SECRET := Some "s3cret" |}
    {| req_secret := Some "s3cret";
       req_update := command_message (Some alice) "start" |} ∅ =
  (inr (Some {| status := 200; body := "" |}), ∅,
   [EvReply welcome_text None]).
Proof. reflexivity. Qed.

(** No secret is configured: neither a guess nor the absence of a secret is
    accepted. *)
Lemma missing_secret_rejects_all_example :
  let env := working (λ _, inr "hi there") in
  let penv :=
    {| USERS := None; BOT_TOKEN := None; FUNCTION_SECRET := None |} in
  serve env ["alice"] penv
    {| req_secret := Some "undefined";
       req_update := text_message (Some alice) "hello" |} ∅ =
    (inr (Some {| status := 405; body := "not allowed" |}), ∅, []) ∧
  serve env ["alice"] penv
    {| req_secret := None;
       req_update := text_message (Some alice) "hello" |} ∅ =
    (inr (Some {| status := 405; body := "not allowed" |}), ∅, []).
Proof.
  intros env penv.
  split; apply (missing_secret_rejects_all env ["alice"] penv); reflexivity.
Defined.

(** Startup with nothing configured, and with a token only. *)
Lemma missing_configuration_aborts_example :
  startup parse_json_text
    {| USERS := None; BOT_TOKEN := None; FUNCTION_SECRET := Some "s3cret" |} =
    inl token_missing_text ∧
  startup parse_json_text
    {| USERS := None; BOT_TOKEN := Some "123:abc";
       FUNCTION_SECRET := Some "s3cret" |} =
    inl users_missing_text ∧
  startup parse_json_text
    {| USERS := Some ("[" +:+ json_str "alice" +:+ "]"); BOT_TOKEN := None;
       FUNCTION_SECRET := Some "s3cret" |} =
    inl token_missing_text ∧
  startup parse_json_text
    {| USERS := Some "alice, bob"; BOT_TOKEN := None;
       FUNCTION_SECRET := Some "s3cret" |} =
    inl syntax_error.
Proof.
  split; [|split; [|split]].
  - exact (proj1 (missing_configuration_aborts parse_json_text
                    {| USERS := None; BOT_TOKEN := None;
                       FUNCTION_SECRET := Some "s3cret" |} eq_refl) eq_refl).
  - exact (proj1 (missing_configuration_aborts parse_json_text
                    {| USERS := None; BOT_TOKEN := Some "123:abc";
                       FUNCTION_SECRET := Some "s3cret" |} eq_refl) eq_refl).
  - exact (proj2 (proj2 (missing_configuration_aborts parse_json_text
                    {| USERS := Some ("[" +:+ json_str "alice" +:+ "]");
                       BOT_TOKEN := None;
                       FUNCTION_SECRET := Some "s3cret" |} eq_refl) eq_refl)
             (JArray [JString "alice"]) eq_refl).
  - exact (proj1 (proj2 (missing_configuration_aborts parse_json_text
                    {| USERS := Some "alice, bob"; BOT_TOKEN := None;
                       FUNCTION_SECRET := Some "s3cret" |} eq_refl) eq_refl)
             syntax_error eq_refl).
Defined.

(** The secret is not among the values that startup checks: with the
    allow-list and the token set and no secret, startup goes through. *)
Lemma startup_without_secret_goes_through :
  let penv :=
    {| USERS := Some ("[" +:+ json_str "alice" +:+ "]");
       BOT_TOKEN := Some "123:abc";
       FUNCTION_SECRET := None |} in
  FUNCTION_SECRET penv = None ∧
  startup parse_json_text penv =
    inr {| cfg_users := JArray [JString "alice"];
           cfg_botToken := "123:abc" |} ∧
  ¬ (∀ penv, FUNCTION_SECRET penv = None →
             ∃ e, startup parse_json_text penv = inl e).
Proof.
  intros penv. split; [reflexivity|]. split; [reflexivity|].
  intros Hclaim. destruct (Hclaim penv eq_refl) as [e Hrun].
  discriminate Hrun.
Qed.

(** * Further properties of the conversation turn *)

(** The turn never throws, it changes no history but the sender's, and the
    histories are afterwards either what they were or what they were with
    the sender's history followed by the user message and by the assistant
    message made of the provider's answer to that history and a newline. *)
Lemma turn_never_throws_and_is_local (env : Collaborators)
    (ctx : BotContext) (st : Store) :
  let u := user_id <$> ctx_from ctx in
  let h := default [] (st !! u) in
  let message := {| role := user; content := default "" (ctx_text ctx) |} in
  ∃ st' evs,
    on_message env ctx st = (inr tt, st', evs) ∧
    (∀ k, k ≠ u → st' !! k = st !! k) ∧
    (st' = st ∨
     ∃ r, ai_answer env (h ++ [message]) = inr r ∧
          st' = <[u := h ++ [message;
                             {| role := assistant;
                                content := r +:+ nl |}]]> st ∧
          st' !! u =
            Some (h ++ [message;
                        {| role := assistant; content := r +:+ nl |}])).
Proof.
  intros u h message.
  destruct (turn_is_all_or_nothing env ctx st) as [evs [Hrun|(r & Hr & Hrun)]].
  - exists st, evs. split; [exact Hrun|]. split; [reflexivity|by left].
  - eexists _, evs. split; [exact Hrun|]. split.
    + intros k Hk. by rewrite lookup_insert_ne.
    + right. exists r. split; [exact Hr|]. split; [reflexivity|].
      by rewrite lookup_insert_eq.
Qed.

(** When the store cannot be read, the turn ends at once: the provider is
    not called, nothing is written, the error is logged and the sender gets
    the generic reply. *)
Lemma unreadable_history_ends_turn (env : Collaborators) (ctx : BotContext)
    (st : Store) (e : Error) :
  let u := user_id <$> ctx_from ctx in
  store_fault env (OpGet u) = Some e →
  on_message env ctx st =
    (inr tt, st,
     (if truthy_opt (ctx_text ctx) then []
      else detached_events env no_message_text None) ++
     [EvGetHistory u; EvConsoleError e] ++
     detached_events env error_text None).
Proof.
  intros u Hread.
  unfold on_message. run_handler. fold u. rewrite Hread. run_handler.
  destruct (truthy_opt (ctx_text ctx)); cbn [negb];
    rewrite ?reply_detached_run; same_trace.
Qed.

Section TurnOutcomes.

Variable env : Collaborators.
Variable ctx : BotContext.
Variable st : Store.
Variable r : string.

Let u : UserKey := user_id <$> ctx_from ctx.
Let h : list Message := default [] (st !! u).
Let estimate : Z := estimateTokens env (formatMessageHistory env h).
Let message : Message :=
  {| role := user; content := default "" (ctx_text ctx) |}.
Let written : list Message :=
  h ++ [message; {| role := assistant; content := r +:+ nl |}].
Let opening : list Event :=
  (if truthy_opt (ctx_text ctx) then []
   else detached_events env no_message_text None) ++
  [EvGetHistory u] ++
  (if (2000 <? estimate)%Z
   then [EvReply (advisory_text estimate) (Some Markdown)] else []).

Hypothesis history_read : store_fault env (OpGet u) = None.
Hypothesis advisory_delivered :
  (2000 < estimate)%Z →
  send_fault env (advisory_text estimate) (Some Markdown) = None.
Hypothesis answered : ai_answer env (h ++ [message]) = inr r.

(** The history is written before the answer is sent, and a failure to send
    the answer is only logged: the turn is persisted although the sender
    never sees the answer, and no error reply is sent. *)
Lemma undeliverable_answer_is_still_persisted (e : Error) :
  store_fault env (OpSet u written) = None →
  send_fault env r None = Some e →
  on_message env ctx st =
    (inr tt, <[u := written]> st,
     opening ++
     [EvGetAiResponse (h ++ [message]); EvUpdateHistory u written;
      EvReply r None; EvConsoleError e]).
Proof.
  intros Hw Hsend.
  rewrite (turn_until_provider env ctx st history_read advisory_delivered).
  fold u h message. rewrite answered. cbn zeta. fold written. rewrite Hw.
  unfold logged_events. rewrite Hsend. reflexivity.
Qed.

(** When the write fails after the provider has answered, the answer is
    dropped: the histories stay as they were, the error is logged, and the
    sender gets the generic reply and not the answer. *)
Lemma failed_write_drops_the_answer (e : Error) :
  store_fault env (OpSet u written) = Some e →
  on_message env ctx st =
    (inr tt, st,
     opening ++
     [EvGetAiResponse (h ++ [message]); EvUpdateHistory u written;
      EvConsoleError e] ++
     detached_events env error_text None).
Proof.
  intros Hw.
  rewrite (turn_until_provider env ctx st history_read advisory_delivered).
  fold u h message. rewrite answered. cbn zeta. fold written. rewrite Hw.
  reflexivity.
Qed.

End TurnOutcomes.

(** Two turns of the same sender: the second turn reads what the first one
    wrote, calls the provider with the first exchange followed by the new
    message, and leaves the history with both exchanges in order. *)
Lemma second_turn_extends_first (env : Collaborators)
    (ctx1 ctx2 : BotContext) (st : Store) (r1 r2 : string) :
  let u := user_id <$> ctx_from ctx1 in
  let h := default [] (st !! u) in
  let m1 := {| role := user; content := default "" (ctx_text ctx1) |} in
  let m2 := {| role := user; content := default "" (ctx_text ctx2) |} in
  let h1 := h ++ [m1; {| role := assistant; content := r1 +:+ nl |}] in
  let h2 := h1 ++ [m2; {| role := assistant; content := r2 +:+ nl |}] in
  ctx_from ctx2 = ctx_from ctx1 →
  (∀ op, store_fault env op = None) →
  (∀ text mode, send_fault env text mode = None) →
  ai_answer env (h ++ [m1]) = inr r1 →
  ai_answer env (h1 ++ [m2]) = inr r2 →
  ∃ st1 evs1 before after,
    on_message env ctx1 st = (inr tt, st1, evs1) ∧
    on_message env ctx2 st1 =
      (inr tt, <[u := h2]> st,
       before ++ [EvGetAiResponse (h1 ++ [m2]); EvUpdateHistory u h2] ++
       after).
Proof.
  intros u h m1 m2 h1 h2 Hfrom Hstore Hsend Hr1 Hr2.
  pose proof (turn_until_provider env ctx1 st (Hstore _) (λ _, Hsend _ _))
    as Hfirst.
  fold u h m1 in Hfirst. rewrite Hr1 in Hfirst. cbn zeta in Hfirst.
  fold h1 in Hfirst. rewrite Hstore in Hfirst.
  pose proof (turn_until_provider env ctx2 (<[u := h1]> st)
                (Hstore _) (λ _, Hsend _ _)) as Hsecond.
  rewrite Hfrom in Hsecond. fold u in Hsecond.
  rewrite lookup_insert_eq in Hsecond.
  change (default [] (Some h1)) with h1 in Hsecond.
  fold m2 in Hsecond. rewrite Hr2 in Hsecond. cbn zeta in Hsecond.
  fold h2 in Hsecond. rewrite Hstore, insert_insert_eq in Hsecond.
  eexists _, _, _, _. split; [exact Hfirst|].
  rewrite Hsecond. reflexivity.
Qed.

(** * Further properties of the bot *)

(** The error boundary of the source is given no middleware to protect: it
    hands every update to what is installed after it and catches nothing of
    what that throws. *)
Lemma error_boundary_protects_nothing (ctx : BotContext) (next : M unit)
    (st : Store) :
  errorBoundary console_error pass ctx next st = next st.
Proof.
  unfold errorBoundary, pass, try_catch, bind, when, ret. cbn beta iota.
  by destruct (next st) as [[res st'] evs].
Qed.

Lemma owner_or_stranger (users : list string) (ctx : BotContext) :
  (∃ name, ctx_username ctx = Some name ∧ name ∈ users) ∨
  (∀ name, ctx_username ctx = Some name → name ∉ users).
Proof.
  destruct (existsb (λ user, strict_eq_str (ctx_username ctx) user) users)
    eqn:Howner.
  - left. by apply owner_iff.
  - right. intros name Heq Hin.
    assert (Htrue : existsb (λ user, strict_eq_str (ctx_username ctx) user)
                      users = true) by (apply owner_iff; eauto).
    congruence.
Qed.

(** What the bot does once the sender has passed the gate. *)
Lemma bot_for_owner (env : Collaborators) (users : list string)
    (ctx : BotContext) (st : Store) :
  (∃ name, ctx_username ctx = Some name ∧ name ∈ users) →
  (ctx_command ctx = Some "start" ∧
   bot env users ctx st = command_start env ctx st) ∨
  (ctx_command ctx = Some "credits" ∧
   bot env users ctx st = command_credits env ctx st) ∨
  (ctx_command ctx = Some "ping" ∧
   bot env users ctx st = command_ping env ctx st) ∨
  (ctx_command ctx = Some "history" ∧
   bot env users ctx st = command_history env ctx st) ∨
  (ctx_command ctx = Some "clear" ∧
   bot env users ctx st = command_clear env ctx st) ∨
  ((∀ c, ctx_command ctx = Some c → ¬ handled c) ∧
   bot env users ctx st =
     if ctx_is_message ctx then on_message env ctx st else (inr tt, st, [])).
Proof.
  intros Howner. unfold bot, compose. cbn [foldr].
  rewrite owner_is_let_in by done.
  unfold command, on_message_update.
  destruct (ctx_command ctx) as [c|]; cbn [strict_eq_str].
  - destruct (decide (c = "start")) as [->|Hstart];
      [rewrite bool_decide_eq_true_2 by done; eauto 10|].
    rewrite (bool_decide_eq_false_2 (c = "start")) by done.
    destruct (decide (c = "credits")) as [->|Hcredits];
      [rewrite bool_decide_eq_true_2 by done; eauto 10|].
    rewrite (bool_decide_eq_false_2 (c = "credits")) by done.
    destruct (decide (c = "ping")) as [->|Hping];
      [rewrite bool_decide_eq_true_2 by done; eauto 10|].
    rewrite (bool_decide_eq_false_2 (c = "ping")) by done.
    destruct (decide (c = "history")) as [->|Hhistory];
      [rewrite bool_decide_eq_true_2 by done; eauto 10|].
    rewrite (bool_decide_eq_false_2 (c = "history")) by done.
    rewrite error_boundary_protects_nothing.
    destruct (decide (c = "clear")) as [->|Hclear];
      [rewrite bool_decide_eq_true_2 by done; eauto 10|].
    rewrite (bool_decide_eq_false_2 (c = "clear")) by done.
    do 5 right. split; [|by destruct (ctx_is_message ctx)].
    intros c' [= <-]. unfold handled. intuition.
  - rewrite error_boundary_protects_nothing.
    do 5 right. split; [intros c; discriminate|].
    by destruct (ctx_is_message ctx).
Qed.

(** Runs a command handler by cases on what its collaborators answer. *)
Ltac by_cases_on_services :=
  repeat first
    [ progress (run_handler; cbn [negb])
    | rewrite reply_detached_run
    | rewrite reply_logged_run
    | rewrite reply_run; unfold send_result
    | progress unfold logged_events, detached_events
    | match goal with
      | |- context [match send_fault ?e ?t ?m with _ => _ end] =>
          destruct (send_fault e t m) eqn:?
      | |- context [match store_fault ?e ?o with _ => _ end] =>
          destruct (store_fault e o) eqn:?
      | |- context [match ai_answer ?e ?ms with _ => _ end] =>
          destruct (ai_answer e ms) eqn:?
      | |- context [match credits_answer ?e with _ => _ end] =>
          destruct (credits_answer e) eqn:?
      | |- context [if ?b then _ else _] => destruct b eqn:?
      end ].

(** An update from a sender of the allow-list that carries a message and no
    command with a handler is a conversation turn; a command without a
    handler is sent to the provider like any other text. *)
Lemma owner_message_runs_turn (env : Collaborators) (users : list string)
    (ctx : BotContext) (st : Store) :
  (∃ name, ctx_username ctx = Some name ∧ name ∈ users) →
  ctx_is_message ctx = true →
  (∀ c, ctx_command ctx = Some c → ¬ handled c) →
  bot env users ctx st = on_message env ctx st.
Proof.
  intros Howner Hmsg Hfree.
  destruct (bot_for_owner env users ctx st Howner)
    as [[Hc _]|[[Hc _]|[[Hc _]|[[Hc _]|[[Hc _]|[_ Hrun]]]]]];
    try (destruct (Hfree _ Hc); unfold handled; tauto).
  by rewrite Hrun, Hmsg.
Qed.

(** An update from a sender of the allow-list that is not a message and
    carries no command with a handler goes through the bot without any
    effect. *)
Lemma other_updates_are_ignored (env : Collaborators) (users : list string)
    (ctx : BotContext) (st : Store) :
  (∃ name, ctx_username ctx = Some name ∧ name ∈ users) →
  ctx_is_message ctx = false →
  (∀ c, ctx_command ctx = Some c → ¬ handled c) →
  bot env users ctx st = (inr tt, st, []).
Proof.
  intros Howner Hmsg Hfree.
  destruct (bot_for_owner env users ctx st Howner)
    as [[Hc _]|[[Hc _]|[[Hc _]|[[Hc _]|[[Hc _]|[_ Hrun]]]]]];
    try (destruct (Hfree _ Hc); unfold handled; tauto).
  by rewrite Hrun, Hmsg.
Qed.

(** An update that carries a command with a handler never reaches the
    conversation turn, whoever sends it and whatever the services answer:
    the provider is not asked for a completion and no history is written;
    and apart from [/clear] the histories are left as they were. *)
Lemma commands_never_call_completion (env : Collaborators)
    (users : list string) (ctx : BotContext) (st : Store) (c : string) :
  ctx_command ctx = Some c → handled c →
  ∃ res st' evs,
    bot env users ctx st = (res, st', evs) ∧
    (∀ ms, EvGetAiResponse ms ∉ evs) ∧
    (∀ k ms, EvUpdateHistory k ms ∉ evs) ∧
    (c ≠ "clear" → st' = st).
Proof.
  intros Hcmd Hhandled.
  destruct (owner_or_stranger users ctx) as [Howner|Hstranger].
  - destruct (bot_for_owner env users ctx st Howner)
      as [[Hc ->]|[[Hc ->]|[[Hc ->]|[[Hc ->]|[[Hc ->]|[Hfree _]]]]]];
      [| | | | |destruct (Hfree _ Hcmd Hhandled)];
      unfold command_start, command_credits, command_ping, command_history,
        command_clear;
      by_cases_on_services;
      (eexists _, _, _; split; [reflexivity|]);
      (split; [intros ms; cbn [app]; absent_event|]);
      (split; [intros k ms; cbn [app]; absent_event|]);
      first [ intros _; reflexivity | intros Hne; congruence ].
  - unfold bot, compose. cbn [foldr].
    rewrite stranger_is_denied by done. rewrite reply_run.
    eexists _, _, _; split; [reflexivity|].
    split; [intros ms; absent_event|].
    split; [intros k ms; absent_event|reflexivity].
Qed.

Lemma owner_has_sender (users : list string) (ctx : BotContext) :
  (∃ name, ctx_username ctx = Some name ∧ name ∈ users) →
  ∃ sender, ctx_from ctx = Some sender.
Proof.
  intros (name & Hname & _). unfold ctx_username in Hname.
  destruct (ctx_from ctx) as [sender|]; [by exists sender|discriminate].
Qed.

(** Through the bot no history is ever read, written or cleared under the
    absent key, and what is stored under it never changes: the gate lets no
    update without sender reach the handler of messages, and [/history] and
    [/clear] stop when there is no user id. *)
Lemma bot_never_uses_absent_key (env : Collaborators) (users : list string)
    (ctx : BotContext) (st : Store) :
  ∃ res st' evs,
    bot env users ctx st = (res, st', evs) ∧
    st' !! (None : UserKey) = st !! (None : UserKey) ∧
    (EvGetHistory None ∉ evs) ∧
    (∀ ms, EvUpdateHistory None ms ∉ evs) ∧
    EvClearHistory None ∉ evs.
Proof.
  destruct (owner_or_stranger users ctx) as [Howner|Hstranger].
  - destruct (owner_has_sender users ctx Howner) as [sender Hfrom].
    destruct (bot_for_owner env users ctx st Howner)
      as [[Hc ->]|[[Hc ->]|[[Hc ->]|[[Hc ->]|[[Hc ->]|[_ ->]]]]]];
      unfold command_start, command_credits, command_ping, command_history,
        command_clear, on_message;
      rewrite ?Hfrom; cbn [fmap option_fmap option_map];
      try (destruct (getUserId env ctx) as [n|]; cbn [falsy_id]);
      by_cases_on_services;
      (eexists _, _, _; split; [reflexivity|]);
      (split; [first [reflexivity | by rewrite lookup_insert_ne]|]);
      (split; [cbn [app]; absent_event|]);
      (split; [intros ms; cbn [app]; absent_event|]);
      cbn [app]; absent_event.
  - unfold bot, compose. cbn [foldr].
    rewrite stranger_is_denied by done. rewrite reply_run.
    eexists _, _, _; split; [reflexivity|]. split; [reflexivity|].
    split; [absent_event|]. split; [intros ms; absent_event|absent_event].
Qed.

(** [/clear] followed by [/history]: once the history of the sender has been
    cleared, and nobody else's, the transcript that [/history] shows is
    "History is empty" (the formatter renders no message as the empty
    string), and [/history] itself changes nothing. *)
Lemma clear_then_history_is_empty (env : Collaborators) (users : list string)
    (clear history : BotContext) (st : Store) (uid : Z) :
  (∃ name, ctx_username clear = Some name ∧ name ∈ users) →
  (∃ name, ctx_username history = Some name ∧ name ∈ users) →
  ctx_command clear = Some "clear" →
  ctx_command history = Some "history" →
  getUserId env clear = Some uid → getUserId env history = Some uid →
  uid ≠ 0%Z →
  (∀ op, store_fault env op = None) →
  (∀ text mode, send_fault env text mode = None) →
  formatMessageHistory env [] = "" →
  let st' := <[Some uid := []]> st in
  bot env users clear st =
    (inr tt, st', [EvClearHistory (Some uid); EvReply cleared_text None]) ∧
  (∀ k, k ≠ Some uid → st' !! k = st !! k) ∧
  bot env users history st' =
    (inr tt, st',
     [EvGetHistory (Some uid); EvConsoleLog "";
      EvReply history_empty_text None]).
Proof.
  intros Hown1 Hown2 Hc1 Hc2 Hid1 Hid2 Hnz Hstore Hsend Hfmt st'.
  assert (Hfalsy : falsy_id (Some uid) = false)
    by (cbn; by rewrite bool_decide_eq_false_2).
  split; [|split].
  - destruct (bot_for_owner env users clear st Hown1)
      as [[Hc _]|[[Hc _]|[[Hc _]|[[Hc _]|[[_ ->]|[Hfree _]]]]]];
      try congruence; [|destruct (Hfree _ Hc1); unfold handled; tauto].
    unfold command_clear. rewrite Hid1, Hfalsy.
    repeat first [ progress run_handler | rewrite Hstore | rewrite Hsend
                 | rewrite reply_run; unfold send_result ].
    reflexivity.
  - intros k Hk. subst st'. by rewrite lookup_insert_ne.
  - destruct (bot_for_owner env users history st' Hown2)
      as [[Hc _]|[[Hc _]|[[Hc _]|[[_ ->]|[[Hc _]|[Hfree _]]]]]];
      try congruence; [|destruct (Hfree _ Hc2); unfold handled; tauto].
    unfold command_history. rewrite Hid2, Hfalsy.
    repeat first [ progress run_handler | rewrite Hstore ].
    subst st'. rewrite lookup_insert_eq.
    change (default [] (Some [])) with (@nil Message).
    change (filter (λ m, role m ≠ system) []) with (@nil Message).
    rewrite Hfmt. cbn [remove_newlines truthy].
    repeat first [ progress run_handler | rewrite Hsend
                 | rewrite reply_run; unfold send_result ].
    reflexivity.
Qed.

(** In [/credits] the reply has its own [catch]: when the usage query
    answers, the handler ends normally whether or not the reply can be
    delivered, a failed delivery being logged; nothing else is called and
    the histories are untouched. *)
Lemma credits_reply_failure_is_logged (env : Collaborators)
    (users : list string) (ctx : BotContext) (st : Store) (c : Credits) :
  (∃ name, ctx_username ctx = Some name ∧ name ∈ users) →
  ctx_command ctx = Some "credits" →
  credits_answer env = inr c →
  bot env users ctx st =
    (inr tt, st,
     [EvGetCredits; EvReply (credits_text c) (Some HTML)] ++
     match send_fault env (credits_text c) (Some HTML) with
     | Some e => [EvConsoleError e]
     | None => []
     end).
Proof.
  intros Howner Hcmd Hc.
  destruct (bot_for_owner env users ctx st Howner)
    as [[Hc' _]|[[_ ->]|[[Hc' _]|[[Hc' _]|[[Hc' _]|[Hfree _]]]]]];
    try congruence; [|destruct (Hfree _ Hcmd); unfold handled; tauto].
  unfold command_credits. run_handler. rewrite Hc. run_handler.
  by rewrite reply_logged_run.
Qed.

(** In [/start] and [/ping] the reply is returned to the framework as it
    is: a reply that cannot be delivered leaves the bot as a thrown
    error. *)
Lemma start_reply_failure_leaves_the_bot (env : Collaborators)
    (users : list string) (ctx : BotContext) (st : Store) (e : Error) :
  (∃ name, ctx_username ctx = Some name ∧ name ∈ users) →
  ctx_command ctx = Some "start" →
  send_fault env welcome_text None = Some e →
  bot env users ctx st = (inl e, st, [EvReply welcome_text None]).
Proof.
  intros Howner Hcmd Hsend.
  destruct (bot_for_owner env users ctx st Howner)
    as [[_ ->]|[[Hc' _]|[[Hc' _]|[[Hc' _]|[[Hc' _]|[Hfree _]]]]]];
    try congruence; [|destruct (Hfree _ Hcmd); unfold handled; tauto].
  unfold command_start. rewrite reply_run. unfold send_result.
  by rewrite Hsend.
Qed.

(** * Further properties of the HTTP function *)

(** The function given to [serve] never throws: whatever the request and
    whatever the bot does, it ends with the 405 response, with the 200
    response, or without a response after logging an error. *)
Lemma serve_never_throws (env : Collaborators) (users : list string)
    (penv : ProcessEnv) (req : Request) (st : Store) :
  ∃ res st' evs,
    serve env users penv req st = (inr res, st', evs) ∧
    (res = Some {| status := 405; body := "not allowed" |} ∨
     res = Some {| status := 200; body := "" |} ∨
     res = None ∧ ∃ e, last evs = Some (EvConsoleError e)).
Proof.
  unfold serve, handleUpdate. run_handler.
  destruct (strict_eq_null_undef _ _); cbn [negb]; [|eauto 10].
  destruct (bot env users (req_update req) st) as [[[e|[]] st'] evs];
    repeat (progress run_handler); cbn [app].
  - eexists _, _, _. split; [reflexivity|]. do 2 right.
    split; [reflexivity|]. exists e. apply last_snoc.
  - eexists _, _, _. split; [reflexivity|]. eauto.
Qed.

(** A request that carries the configured secret is handed to the bot: the
    histories and the calls are those of the bot on the update, the
    response is 200 when the bot ends normally, and when the bot throws the
    error is logged and there is no response. *)
Lemma accepted_request_runs_bot (env : Collaborators) (users : list string)
    (penv : ProcessEnv) (req : Request) (st : Store) :
  (∃ s, req_secret req = Some s ∧ FUNCTION_SECRET penv = Some s) →
  serve env users penv req st =
    match bot env users (req_update req) st with
    | (inr _, st', evs) =>
        (inr (Some {| status := 200; body := "" |}), st', evs)
    | (inl e, st', evs) => (inr None, st', evs ++ [EvConsoleError e])
    end.
Proof.
  intros Hsecret. apply strict_eq_null_undef_true in Hsecret.
  unfold serve, handleUpdate. run_handler. rewrite Hsecret. cbn [negb].
  destruct (bot env users (req_update req) st) as [[[e|[]] st'] evs];
    repeat (progress run_handler); cbn [app].
  - reflexivity.
  - by rewrite !app_nil_r.
Qed.

(** * Further properties of startup *)

(** When startup goes through, both values were set in the environment and
    not empty, and the token of the configuration is the one of the
    environment.  Of the allow-list startup only knows that its [length] is
    truthy: it is the parsed value of [USERS], and that is an array with at
    least one element, a string that is not empty, or an object with a
    truthy [length]; nothing checks that it is an array of strings. *)
Lemma started_config_is_usable
    (JSON_parse : string → Error + Json) (penv : ProcessEnv)
    (cfg : Config) :
  JSON_parse "[]" = inr (JArray []) →
  startup JSON_parse penv = inr cfg →
  (BOT_TOKEN penv = Some (cfg_botToken cfg) ∧ cfg_botToken cfg ≠ "") ∧
  (∃ text, USERS penv = Some text ∧ text ≠ "" ∧
           JSON_parse text = inr (cfg_users cfg)) ∧
  match cfg_users cfg with
  | JArray items => items ≠ []
  | JString s => s ≠ ""
  | JObject fields =>
      ∃ v, own_property "length" fields = Some v ∧ js_truthy v = true
  | _ => False
  end.
Proof.
  intros Hempty. unfold startup.
  destruct (JSON_parse (or_else (USERS penv) "[]")) as [e|users] eqn:Hparse;
    [discriminate|].
  destruct (BOT_TOKEN penv) as [[|c t]|]; cbn [or_else truthy negb];
    try discriminate.
  destruct (length_property users) as [e|len] eqn:Hlen; [discriminate|].
  destruct (js_truthy_opt len) eqn:Htruthy; cbn [negb]; [|discriminate].
  intros [= <-]. cbn [cfg_users cfg_botToken].
  assert (Hsome : users ≠ JArray []).
  { intros ->. cbn in Hlen. injection Hlen as <-. discriminate Htruthy. }
  split; [done|]. split.
  - destruct (USERS penv) as [[|c' t']|]; cbn in Hparse.
    + rewrite Hempty in Hparse. injection Hparse as <-. by destruct Hsome.
    + eexists. split; [reflexivity|]. split; [done|exact Hparse].
    + rewrite Hempty in Hparse. injection Hparse as <-. by destruct Hsome.
  - destruct users as [|b|x|s|items|fields]; cbn in Hlen;
      try discriminate; injection Hlen as <-; cbn in Htruthy;
      try discriminate.
    + by destruct s.
    + by destruct items.
    + destruct (own_property "length" fields) as [v|]; [|discriminate].
      by exists v.
Qed.

(** * Further examples *)

Lemma alice_is_allowed (ctx : BotContext) :
  ctx_from ctx = Some alice →
  ∃ name, ctx_username ctx = Some name ∧ name ∈ ["alice"].
Proof.
  intros Hfrom. exists "alice". unfold ctx_username. rewrite Hfrom.
  split; [reflexivity|]. by apply list_elem_of_singleton.
Defined.

Lemma foo_is_not_handled (c : string) : Some "foo" = Some c → ¬ handled c.
Proof.
  intros [= <-] [H|[H|[H|[H|H]]]]; discriminate H.
Defined.

Lemma unreadable_history_ends_turn_example :
  on_message
    (services quarter_length (λ _, inr "hi there")
       (unreadable "database unreachable") (λ _ _, None))
    (text_message (Some alice) "hello") ∅ =
  (inr tt, ∅,
   [ EvGetHistory (Some 42%Z);
     EvConsoleError "database unreachable";
     EvReply error_text None ]).
Proof.
  exact (unreadable_history_ends_turn
           (services quarter_length (λ _, inr "hi there")
              (unreadable "database unreachable") (λ _ _, None))
           (text_message (Some alice) "hello") ∅
           "database unreachable" eq_refl).
Defined.

Lemma undelivered_advisory_ends_turn_example :
  let env :=
    services (λ s, (100 * Z.of_nat (String.length s))%Z)
      (λ _, inr "and then?") (λ _, None) (no_markdown "cannot parse") in
  let st : Store := {[ Some 42%Z := small_talk ]} in
  let estimate := estimateTokens env (formatMessageHistory env small_talk) in
  on_message env (text_message (Some alice) "go on") st =
    (inr tt, st,
     [ EvGetHistory (Some 42%Z);
       EvReply (advisory_text estimate) (Some Markdown);
       EvConsoleError "cannot parse";
       EvReply error_text None ]).
Proof.
  intros env st estimate.
  assert (Hover : (2000 < estimate)%Z) by (vm_compute; reflexivity).
  exact (undelivered_advisory_ends_turn env
           (text_message (Some alice) "go on") st "cannot parse"
           eq_refl Hover eq_refl).
Defined.

Lemma undeliverable_answer_is_still_persisted_example :
  let written :=
    [ {| role := user; content := "hello" |};
      {| role := assistant; content := "hi there" +:+ nl |} ] in
  on_message
    (services quarter_length (λ _, inr "hi there") (λ _, None)
       (λ _ _, Some "bot was blocked"))
    (text_message (Some alice) "hello") ∅ =
  (inr tt, {[ Some 42%Z := written ]},
   [ EvGetHistory (Some 42%Z);
     EvGetAiResponse [ {| role := user; content := "hello" |} ];
     EvUpdateHistory (Some 42%Z) written;
     EvReply "hi there" None;
     EvConsoleError "bot was blocked" ]).
Proof.
  assert (Hunder : (2000 < 0)%Z → Some "bot was blocked" = @None Error)
    by (intros Hlt; discriminate Hlt).
  exact (undeliverable_answer_is_still_persisted
           (services quarter_length (λ _, inr "hi there") (λ _, None)
              (λ _ _, Some "bot was blocked"))
           (text_message (Some alice) "hello") ∅ "hi there"
           eq_refl Hunder eq_refl "bot was blocked" eq_refl eq_refl).
Defined.

Lemma failed_write_drops_the_answer_example :
  let written :=
    [ {| role := user; content := "hello" |};
      {| role := assistant; content := "hi there" +:+ nl |} ] in
  on_message
    (services quarter_length (λ _, inr "hi there") (read_only "disk full")
       (λ _ _, None))
    (text_message (Some alice) "hello") ∅ =
  (inr tt, ∅,
   [ EvGetHistory (Some 42%Z);
     EvGetAiResponse [ {| role := user; content := "hello" |} ];
     EvUpdateHistory (Some 42%Z) written;
     EvConsoleError "disk full";
     EvReply error_text None ]).
Proof.
  exact (failed_write_drops_the_answer
           (services quarter_length (λ _, inr "hi there")
              (read_only "disk full") (λ _ _, None))
           (text_message (Some alice) "hello") ∅ "hi there"
           eq_refl (λ _, eq_refl) eq_refl "disk full" eq_refl).
Defined.

Lemma second_turn_extends_first_example :
  let one := {| role := user; content := "one" |} in
  let two := {| role := user; content := "two" |} in
  let ok := {| role := assistant; content := "ok" +:+ nl |} in
  ∃ st1 evs1 before after,
    on_message (working (λ _, inr "ok"))
      (text_message (Some alice) "one") ∅ = (inr tt, st1, evs1) ∧
    on_message (working (λ _, inr "ok"))
      (text_message (Some alice) "two") st1 =
      (inr tt, <[Some 42%Z := [one; ok; two; ok]]> ∅,
       before ++
       [ EvGetAiResponse [one; ok; two];
         EvUpdateHistory (Some 42%Z) [one; ok; two; ok] ] ++
       after).
Proof.
  exact (second_turn_extends_first (working (λ _, inr "ok"))
           (text_message (Some alice) "one")
           (text_message (Some alice) "two") ∅ "ok" "ok"
           eq_refl (λ _, eq_refl) (λ _ _, eq_refl) eq_refl eq_refl).
Defined.

Lemma owner_message_runs_turn_example :
  let ctx :=
    {| ctx_from := Some alice; ctx_is_message := true;
       ctx_text := Some "/foo"; ctx_command := Some "foo" |} in
  bot (working (λ _, inr "hi there")) ["alice"] ctx ∅ =
  on_message (working (λ _, inr "hi there")) ctx ∅.
Proof.
  intros ctx.
  exact (owner_message_runs_turn (working (λ _, inr "hi there")) ["alice"]
           ctx ∅ (alice_is_allowed ctx eq_refl) eq_refl foo_is_not_handled).
Defined.

Lemma other_updates_are_ignored_example :
  bot (working (λ _, inr "hi there")) ["alice"]
    (edited_message (Some alice)) ∅ = (inr tt, ∅, []).
Proof.
  exact (other_updates_are_ignored (working (λ _, inr "hi there")) ["alice"]
           (edited_message (Some alice)) ∅
           (alice_is_allowed (edited_message (Some alice)) eq_refl) eq_refl
           (λ c Hc, ltac:(discriminate Hc))).
Defined.

Lemma commands_never_call_completion_example :
  ∃ res st' evs,
    bot (working (λ _, inr "hi there")) ["alice"]
      (command_message (Some alice) "history")
      {[ Some 42%Z := small_talk ]} = (res, st', evs) ∧
    (∀ ms, EvGetAiResponse ms ∉ evs) ∧
    (∀ k ms, EvUpdateHistory k ms ∉ evs) ∧
    ("history" ≠ "clear" → st' = {[ Some 42%Z := small_talk ]}).
Proof.
  apply (commands_never_call_completion (working (λ _, inr "hi there"))
           ["alice"] (command_message (Some alice) "history")
           {[ Some 42%Z := small_talk ]} "history").
  - reflexivity.
  - unfold handled. tauto.
Defined.

(** Scenario D: [/clear] on a history that is not empty, then [/history]. *)
Lemma clear_then_history_is_empty_scenario_D :
  let env := working (λ _, inr "hi there") in
  let st : Store := {[ Some 42%Z := small_talk ]} in
  let st' : Store := <[ Some 42%Z := [] ]> st in
  bot env ["alice"] (command_message (Some alice) "clear") st =
    (inr tt, st', [EvClearHistory (Some 42%Z); EvReply cleared_text None]) ∧
  (∀ k, k ≠ Some 42%Z → st' !! k = st !! k) ∧
  bot env ["alice"] (command_message (Some alice) "history") st' =
    (inr tt, st',
     [ EvGetHistory (Some 42%Z); EvConsoleLog "";
       EvReply history_empty_text None ]).
Proof.
  intros env st st'.
  assert (Hid : 42%Z ≠ 0%Z) by discriminate.
  exact (clear_then_history_is_empty env ["alice"]
           (command_message (Some alice) "clear")
           (command_message (Some alice) "history") st 42
           (alice_is_allowed (command_message (Some alice) "clear") eq_refl)
           (alice_is_allowed (command_message (Some alice) "history") eq_refl)
           eq_refl eq_refl eq_refl eq_refl Hid
           (λ _, eq_refl) (λ _ _, eq_refl) eq_refl).
Defined.

Lemma credits_reply_failure_is_logged_example :
  let c := {| total_available := "18"; total_used := "0.5" |} in
  bot
    (services quarter_length (λ _, inr "hi there") (λ _, None)
       (λ _ _, Some "bot was blocked"))
    ["alice"] (command_message (Some alice) "credits") ∅ =
  (inr tt, ∅,
   [ EvGetCredits; EvReply (credits_text c) (Some HTML);
     EvConsoleError "bot was blocked" ]).
Proof.
  exact (credits_reply_failure_is_logged
           (services quarter_length (λ _, inr "hi there") (λ _, None)
              (λ _ _, Some "bot was blocked"))
           ["alice"] (command_message (Some alice) "credits") ∅
           {| total_available := "18"; total_used := "0.5" |}
           (alice_is_allowed (command_message (Some alice) "credits") eq_refl)
           eq_refl eq_refl).
Defined.

Lemma start_reply_failure_leaves_the_bot_example :
  bot
    (services quarter_length (λ _, inr "hi there") (λ _, None)
       (λ _ _, Some "bot was blocked"))
    ["alice"] (command_message (Some alice) "start") ∅ =
  (inl "bot was blocked", ∅, [EvReply welcome_text None]).
Proof.
  exact (start_reply_failure_leaves_the_bot
           (services quarter_length (λ _, inr "hi there") (λ _, None)
              (λ _ _, Some "bot was blocked"))
           ["alice"] (command_message (Some alice) "start") ∅
           "bot was blocked"
           (alice_is_allowed (command_message (Some alice) "start") eq_refl)
           eq_refl eq_refl).
Defined.

Lemma history_failure_leaves_the_bot_example :
  bot
    (services quarter_length (λ _, inr "hi there")
       (unreadable "database unreachable") (λ _ _, None))
    ["alice"] (command_message (Some alice) "history") ∅ =
  (inl "database unreachable", ∅, [EvGetHistory (Some 42%Z)]).
Proof.
  exact (history_failure_leaves_the_bot
           (services quarter_length (λ _, inr "hi there")
              (unreadable "database unreachable") (λ _ _, None))
           ["alice"] (command_message (Some alice) "history") ∅
           "database unreachable"
           (alice_is_allowed (command_message (Some alice) "history") eq_refl)
           eq_refl eq_refl eq_refl).
Defined.

Lemma clear_failure_leaves_the_bot_example :
  bot
    (services quarter_length (λ _, inr "hi there")
       (read_only "disk full") (λ _ _, None))
    ["alice"] (command_message (Some alice) "clear")
    {[ Some 42%Z := small_talk ]} =
  (inl "disk full", {[ Some 42%Z := small_talk ]},
   [EvClearHistory (Some 42%Z)]).
Proof.
  exact (clear_failure_leaves_the_bot
           (services quarter_length (λ _, inr "hi there")
              (read_only "disk full") (λ _ _, None))
           ["alice"] (command_message (Some alice) "clear")
           {[ Some 42%Z := small_talk ]} "disk full"
           (alice_is_allowed (command_message (Some alice) "clear") eq_refl)
           eq_refl eq_refl eq_refl).
Defined.

Lemma accepted_request_runs_bot_example :
  serve (working (λ _, inr "hi there")) ["alice"]
    {| USERS := None; BOT_TOKEN := None; FUNCTION_SECRET := Some "s3cret" |}
    {| req_secret := Some "s3cret";
       req_update := text_message (Some alice) "hello" |} ∅ =
  (inr (Some {| status := 200; body := "" |}),
   {[ Some 42%Z :=
        [ {| role := user; content := "hello" |};
          {| role := assistant; content := "hi there" +:+ nl |} ] ]},
   [ EvGetHistory (Some 42%Z);
     EvGetAiResponse [ {| role := user; content := "hello" |} ];
     EvUpdateHistory (Some 42%Z)
       [ {| role := user; content := "hello" |};
         {| role := assistant; content := "hi there" +:+ nl |} ];
     EvReply "hi there" None ]).
Proof.
  rewrite (accepted_request_runs_bot (working (λ _, inr "hi there"))
             ["alice"]
             {| USERS := None; BOT_TOKEN := None;
                FUNCTION_SECRET := Some "s3cret" |}
             {| req_secret := Some "s3cret";
                req_update := text_message (Some alice) "hello" |} ∅
             (ex_intro _ "s3cret" (conj eq_refl eq_refl))).
  reflexivity.
Defined.

(** [USERS] holds the JSON string ["alice"] and not an array: startup goes
    through, with the string as allow-list. *)
Lemma started_config_is_usable_example :
  let penv :=
    {| USERS := Some (json_str "alice"); BOT_TOKEN := Some "123:abc";
       FUNCTION_SECRET := None |} in
  let cfg := {| cfg_users := JString "alice"; cfg_botToken := "123:abc" |} in
  startup parse_json_text penv = inr cfg ∧
  (BOT_TOKEN penv = Some "123:abc" ∧ "123:abc" ≠ "") ∧
  (∃ text, USERS penv = Some text ∧ text ≠ "" ∧
           parse_json_text text = inr (JString "alice")) ∧
  "alice" ≠ "".
Proof.
  intros penv cfg. split; [reflexivity|].
  exact (started_config_is_usable parse_json_text penv cfg
           eq_refl eq_refl).
Defined.
